(** * Meditation session generator: a shallow embedding of
      [meditation_generator.py] and the properties of its pipeline.

    Samples are IEEE-754 binary64 numbers (numpy's float64), taken as Rocq's
    primitive floats so that every definition evaluates; the float32 buffer
    of the voice track lives in the binary32 instance of [SpecFloat].
    Python exceptions are values of [exn]; code that touches the random
    generator or the file system threads a [world]. *)

From Stdlib Require Import ZArith List Bool Lia Uint63 Floats.
From stdpp Require Import gmap strings pretty.
Import ListNotations.

Local Open Scope Z_scope.
Local Open Scope string_scope.

(** ** Exceptions and results *)

Inductive exn :=
| ValueError (msg : string)
| KeyError (key : string)
| UnboundLocalError (var : string)
| OverflowError (msg : string)
| IndexError (msg : string)
| TypeError (msg : string)
| FileNotFoundError (path : string)
| EngineError (msg : string)
| MemoryError (msg : string).

Inductive result (A : Type) :=
| Ok (a : A)
| Raise (e : exn).
Arguments Ok {A} a.
Arguments Raise {A} e.

Definition rbind {A B} (r : result A) (k : A -> result B) : result B :=
  match r with Ok a => k a | Raise e => Raise e end.

Definition is_ok {A} (r : result A) : bool :=
  match r with Ok _ => true | Raise _ => false end.

(** ** The world: temporary files and the global random generator *)

Record world := World {
  files : gmap string (list Byte.byte);   (* path -> content *)
  open_handles : gset string;             (* paths with an open handle *)
  temp_count : nat;                       (* temporary names handed out *)
  rng_draws : nat                         (* random numbers consumed *)
}.

Definition M (A : Type) : Type := world -> result A * world.

Definition ret {A} (a : A) : M A := fun w => (Ok a, w).
Definition raise {A} (e : exn) : M A := fun w => (Raise e, w).
Definition bind {A B} (m : M A) (k : A -> M B) : M B :=
  fun w => match m w with
           | (Ok a, w') => k a w'
           | (Raise e, w') => (Raise e, w')
           end.
Definition lift {A} (r : result A) : M A := fun w => (r, w).

Declare Scope session_scope.
Delimit Scope session_scope with session.
Notation "'let*' x ':=' m 'in' k" := (bind m (fun x => k))
  (at level 10, x pattern, m at level 100, k at level 200) : session_scope.
Notation "'run' m 'in' k" := (bind m (fun _ => k))
  (at level 10, m at level 100, k at level 200) : session_scope.
Notation "'let?' x ':=' r 'in' k" := (rbind r (fun x => k))
  (at level 10, x pattern, r at level 100, k at level 200) : session_scope.
Local Open Scope session_scope.

(** ** Formats of [SpecFloat] *)

Module Binary.
(** A format with at least two bits of precision and [emax] above them:
    binary32 is (24, 128), binary64 is (53, 1024). *)
Definition format (prec emax : Z) : Prop := 2 <= prec /\ prec < emax.

(** The number one of a format. *)
Definition one (prec : Z) : spec_float :=
  S754_finite false (Z.to_pos (2 ^ (prec - 1))) (1 - prec).

(** The absolute values of the finite numbers: [+0] and the positive
    finite numbers. *)
Inductive magnitude : spec_float -> Prop :=
| mag_zero : magnitude (S754_zero false)
| mag_finite (m : positive) (e : Z) : magnitude (S754_finite false m e).

Definition sf_finite (x : spec_float) : bool :=
  match x with
  | S754_zero _ | S754_finite _ _ _ => true
  | _ => false
  end.

(** No sign bit is set. *)
Definition unsigned (x : spec_float) : bool :=
  match x with
  | S754_zero s | S754_infinity s | S754_finite s _ _ => negb s
  | S754_nan => true
  end.
End Binary.

(** ** Floats *)

Module F64.
Local Open Scope float_scope.

(** An integer as a float (exact below 2^53). *)
Definition of_int (z : Z) : float :=
  if (z <? 0)%Z then - of_uint63 (Uint63.of_Z (- z)) else of_uint63 (Uint63.of_Z z).

(** Python's [int(x)]: truncation toward zero. *)
Definition py_int (x : float) : result Z :=
  match Prim2SF x with
  | S754_nan => Raise (ValueError "cannot convert float NaN to integer")
  | S754_infinity _ => Raise (OverflowError "cannot convert float infinity to integer")
  | S754_zero _ => Ok 0%Z
  | S754_finite s m e => Ok (cond_Zopp s (Z.shiftl (Zpos m) e))
  end.

(** Python truthiness of a number. *)
Definition truthy (x : float) : bool := negb (x =? 0).

Definition np_pi : float := 0x1.921fb54442d18p+1.

(** [np.maximum]: a NaN operand is propagated. *)
Definition maximum (a b : float) : float :=
  if is_nan a then a else if is_nan b then b else if a <? b then b else a.

(** [np.max] of a flattened array; the reduction has no identity. *)
Definition np_max (l : list float) : result float :=
  match l with
  | [] => Raise (ValueError "zero-size array to reduction operation maximum which has no identity")
  | x :: xs => Ok (fold_left maximum xs x)
  end.

Definition np_abs (l : list float) : list float := map abs l.

(** The floats that are an absolute value of a finite float. *)
Definition mag (a : float) : Prop := Binary.magnitude (Prim2SF a).

Fixpoint arange (start : Z) (len : nat) : list Z :=
  match len with
  | O => []
  | S len' => start :: arange (start + 1)%Z len'
  end.

(** [np.linspace(start, stop, num)]: [num] evenly spaced points, the last
    one being [stop] itself. *)
Definition linspace_points (start stop : float) (num : Z) : list float :=
  let div := (num - 1)%Z in
  let delta := stop - start in
  let y := map of_int (arange 0 (Z.to_nat num)) in
  let y :=
    if (0 <? div)%Z then
      let step := delta / of_int div in
      if step =? 0 then map (fun v => v / of_int div * delta) y
      else map (fun v => v * step) y
    else map (fun v => v * delta) y in
  let y := map (fun v => v + start) y in
  if (1 <? num)%Z then (removelast y ++ [stop])%list else y.

(** The largest [npy_intp]: no array has more bytes. *)
Definition npy_max_intp : Z := 2 ^ 63 - 1.

(** What numpy does before it builds an array of [count] float64 elements
    in a process that has room for [capacity] of them: a size in bytes
    beyond [npy_intp] is refused with [ValueError] on every machine, a size
    beyond the room with [MemoryError]. (The wording of the refusal differs
    from one numpy function to the other.) *)
Definition allocate (capacity count : Z) : result unit :=
  if (npy_max_intp <? 8 * count)%Z then
    Raise (ValueError "Maximum allowed size exceeded")
  else if (capacity <? count)%Z then
    Raise (MemoryError "Unable to allocate array")
  else Ok tt.

Definition linspace (capacity : Z) (start stop : float) (num : Z) : result (list float) :=
  if (num <? 0)%Z then
    Raise (ValueError ("Number of samples, " +:+ pretty num +:+ ", must be non-negative."))
  else
    let? _ := allocate capacity num in
    Ok (linspace_points start stop num).

Definition zeros_like {A} (a : list A) : list float := map (fun _ => 0) a.

(** Elementwise sum of two arrays of one shape. *)
Definition vadd (a b : list float) : list float := zip_with add a b.
End F64.

(** ** Binary32: the dtype of the decoded voice samples *)

Module F32.
Definition prec : Z := 24.
Definition emax : Z := 128.

Definition of_int (z : Z) : spec_float := binary_normalize prec emax z 0 false.
Definition div : spec_float -> spec_float -> spec_float := SFdiv prec emax.
Definition leb : spec_float -> spec_float -> bool := SFleb.
Definition ltb : spec_float -> spec_float -> bool := SFltb.
Definition one : spec_float := of_int 1.

(** Widening to binary64 is exact. *)
Definition to_f64 (x : spec_float) : float :=
  match x with
  | S754_finite s m e =>
      SF2Prim (binary_normalize FloatOps.prec FloatOps.emax (cond_Zopp s (Zpos m)) e false)
  | _ => SF2Prim x
  end.
End F32.

(** ** Arrays and collaborators *)

(** A sample-major two-channel array, shape (n, 2). *)
Abbreviation stereo := (list (float * float)).
Abbreviation position := (float * float * float)%type.

(** The input of the spatial renderer: a 1-D or an (n, 2) array. *)
Inductive ndarray :=
| Mono (a : list float)
| Stereo (a : stereo).

(** Values of the movement dictionary. *)
Inductive pyval :=
| PStr (s : string)
| PNum (x : float).

Definition pyval_eqb (a b : pyval) : bool :=
  match a, b with
  | PStr s, PStr s' => bool_decide (s = s')
  | PNum x, PNum y => PrimFloat.eqb x y
  | _, _ => false
  end.

(** Libraries the generator calls and whose code is not part of it. *)
Record externals := Externals {
  np_sin : float -> float;
  np_cos : float -> float;
  np_exp : float -> float;
  (* ShoeBox room with one source and the two-microphone array, after
     compute_rir() and simulate(): the pair of microphone samples at every
     instant of the rendered signal *)
  room_simulate : position -> list float -> result stereo;
  (* Rotation.from_euler('xyz', [x, y, z]).apply(v) *)
  rotation_apply : position -> list float -> result (list float);
  (* the k-th number handed out by np.random.rand *)
  random_rand : nat -> float;
  (* gTTS(text=script, lang='en', slow=False).save(path): the bytes written *)
  gtts_speech : string -> result (list Byte.byte);
  (* AudioSegment.from_mp3(path).get_array_of_samples(): 16-bit PCM *)
  mp3_samples : list Byte.byte -> result (list Z);
  (* the float64 elements the process has room for beyond [least_capacity] *)
  spare_capacity : N
}.

(** The machine is taken to have room for the session the repository
    itself generates, ten minutes at 44100 Hz; what it has beyond that
    differs from one machine to the other. *)
Definition least_capacity : Z := 600 * 44100.

(** The number of float64 elements one array can have before numpy runs
    out of memory. *)
Definition capacity (E : externals) : Z := least_capacity + Z.of_N (spare_capacity E).

(** The rate both classes are built with (the default of their
    constructors). *)
Definition sample_rate : Z := 44100.

Definition flatten (a : stereo) : list float :=
  flat_map (fun '(l, r) => [l; r]) a.

Definition column_stack {A} (a b : list A) : list (A * A) := combine a b.

(** [np.zeros((n, 2))] *)
Definition np_zeros (capacity n : Z) : result stereo :=
  if (n <? 0)%Z then Raise (ValueError "negative dimensions are not allowed")
  else
    let? _ := F64.allocate capacity (2 * n) in
    Ok (repeat (0%float, 0%float) (Z.to_nat n)).

(** [np.pad(a, ((0, k), (0, 0)))] *)
Definition pad_rows (a : stereo) (k : nat) : stereo :=
  (a ++ repeat (0%float, 0%float) k)%list.

Definition scale (c : float) (a : stereo) : stereo :=
  map (fun '(l, r) => (l * c, r * c)%float) a.

Definition add_stereo (a b : stereo) : stereo :=
  zip_with (fun '(l, r) '(l', r') => (l + l', r + r')%float) a b.

(** [a / np.max(np.abs(a))] on an (n, 2) array. *)
Definition peak (a : stereo) : result float := F64.np_max (F64.np_abs (flatten a)).

Definition peak_normalize (a : stereo) : result stereo :=
  let? m := peak a in
  Ok (map (fun '(l, r) => (l / m, r / m)%float) a).

(** Length alignment used before every mix: zero-pad the shorter, cut the
    longer. *)
Definition fit_length (sound : stereo) (n : nat) : stereo :=
  if (length sound <? n)%nat then pad_rows sound (n - length sound)
  else firstn n sound.

(** ** SpatialAudioProcessor *)

Section Spatial.
Variable E : externals.
Local Open Scope float_scope.

Definition dict_get (d : gmap string pyval) (k : string) (dflt : pyval) : pyval :=
  default dflt (d !! k).

(** [output[i] = v] on a 2-D array: [v] must have the row's shape (a
    one-element [v] is broadcast). *)
Definition assign_row (output : list (list float)) (i : nat) (v : list float)
  : result (list (list float)) :=
  match output !! i with
  | None => Raise (IndexError "index out of bounds")
  | Some row =>
      if (length v =? length row)%nat then Ok (<[i := v]> output)
      else match v with
           | [c] => Ok (<[i := map (fun _ => c) row]> output)
           | _ => Raise (ValueError "could not broadcast input array")
           end
  end.

(** The trajectory arrays x, y, z; [None] when neither branch of the
    if/elif binds them. *)
Definition trajectory (pattern speed : pyval) (t : list float)
  : result (option (list float * list float * list float)) :=
  if pyval_eqb pattern (PStr "circular") then
    match speed with
    | PNum speed =>
        let angle := map (fun ti => 2 * F64.np_pi * speed * ti) t in
        Ok (Some (map (np_cos E) angle, map (np_sin E) angle, F64.zeros_like t))
    | PStr _ => Raise (TypeError "can't multiply sequence by non-int of type 'float'")
    end
  else if pyval_eqb pattern (PStr "spiral") then
    match speed with
    | PNum speed =>
        let angle := map (fun ti => 2 * F64.np_pi * speed * ti) t in
        Ok (Some (zip_with mul t (map (np_cos E) angle),
                  zip_with mul t (map (np_sin E) angle), t))
    | PStr _ => Raise (TypeError "can't multiply sequence by non-int of type 'float'")
    end
  else Ok None.

(** The body of [for i in range(len(t))], over the remaining indices. *)
Fixpoint movement_loop (idx : list nat)
    (xyz : option (list float * list float * list float))
    (audio output : list (list float)) : result (list (list float)) :=
  match idx with
  | [] => Ok output
  | i :: idx' =>
      match xyz with
      | None => Raise (UnboundLocalError "x")
      | Some (x, y, z) =>
          match x !! i, y !! i, z !! i, audio !! i with
          | Some xi, Some yi, Some zi, Some row =>
              let? v := rotation_apply E (xi, yi, zi) row in
              let? output := assign_row output i v in
              movement_loop idx' xyz audio output
          | _, _, _, _ => Raise (IndexError "index out of bounds")
          end
      end
  end.

(** The time grid of [_apply_movement]: one instant per element of
    [range(len(audio))]. *)
Definition movement_times (audio : list (list float)) : result (list float) :=
  let samples := Z.of_nat (length audio) in
  F64.linspace (capacity E) 0 (F64.of_int samples / F64.of_int sample_rate) samples.

Definition _apply_movement (audio : list (list float)) (movement : gmap string pyval)
  : result (list (list float)) :=
  let pattern := dict_get movement "pattern" (PStr "circular") in
  let speed := dict_get movement "speed" (PNum 0.5) in
  let? t := movement_times audio in
  let? xyz := trajectory pattern speed t in
  let output := map F64.zeros_like audio in
  movement_loop (seq 0 (length t)) xyz audio output.

(** [if movement:] a missing or empty dictionary is false. *)
Definition movement_given (movement : option (gmap string pyval)) : bool :=
  match movement with
  | Some m => negb (bool_decide (m = ∅))
  | None => false
  end.

(** [output.T] of the two-row array. *)
Definition transpose (output : list (list float)) : stereo :=
  combine (nth 0 output []) (nth 1 output []).

Definition create_spatial_effect (audio : ndarray) (pos : position)
    (movement : option (gmap string pyval)) : result stereo :=
  let audio :=
    match audio with
    | Mono a => map (fun v => (v, v)) a
    | Stereo a => a
    end in
  let? mics := room_simulate E pos (map fst audio) in
  (* simulate() hands back one row per microphone *)
  let output := [map fst mics; map snd mics] in
  let? output :=
    match movement with
    | Some m => if movement_given movement then _apply_movement output m else Ok output
    | None => Ok output
    end in
  Ok (transpose output).
End Spatial.

(** ** AdvancedAudioGenerator *)

Record sound_params := SoundParams {
  frequencies : list float;
  base_freq : option float;
  harmonics : list Z;
  preset_duration : float;
  preset_position : position
}.

Set Warnings "-inexact-float".

Definition brainwave_states : gmap string (float * float) :=
  list_to_map
    [("gamma", (30, 50)); ("beta", (14, 30)); ("alpha", (8, 14));
     ("theta", (4, 8)); ("delta", (0.5, 4))]%float.

Definition preset_crystal_bowls : sound_params :=
  SoundParams [396; 417; 528; 639; 741; 852]%float None [] 3.0 (2.5, 2.5, 1.5)%float.

Definition preset_om_chant : sound_params :=
  SoundParams [] (Some 136.1%float) [2; 3; 4] 4.0 (2.5, 0, 1.5)%float.

Definition preset_wind_chimes : sound_params :=
  SoundParams [1318.51; 1174.66; 880; 987.77; 783.99]%float None [] 2.0 (0, 2.5, 2)%float.

Definition special_sounds : gmap string sound_params :=
  list_to_map
    [("crystal_bowls", preset_crystal_bowls);
     ("om_chant", preset_om_chant);
     ("wind_chimes", preset_wind_chimes)].

(** [np.mean] of a pair. *)
Definition np_mean (band : float * float) : float :=
  ((fst band + snd band) / 2)%float.

(** The movement every special sound is rendered with. *)
Definition circular_movement : gmap string pyval :=
  {[ "pattern" := PStr "circular"; "speed" := PNum 0.2%float ]}.

(** Temporary files. *)
Definition temp_name (k : nat) (suffix : string) : string :=
  "/tmp/tmp" +:+ pretty k +:+ suffix.

(** [tempfile.NamedTemporaryFile(suffix=..., delete=False)]: a fresh empty
    file, open. *)
Definition named_temporary_file (suffix : string) : M string :=
  fun w =>
    let name := temp_name (temp_count w) suffix in
    (Ok name,
     {| files := <[name := []]> (files w);
        open_handles := {[name]} ∪ open_handles w;
        temp_count := S (temp_count w);
        rng_draws := rng_draws w |}).

(** Leaving the [with] block of a file opened with [delete=False]: the
    handle is closed, nothing else. *)
Definition close_handle (name : string) : M unit :=
  fun w =>
    (Ok tt,
     {| files := files w;
        open_handles := open_handles w ∖ {[name]};
        temp_count := temp_count w;
        rng_draws := rng_draws w |}).

Definition write_file (name : string) (content : list Byte.byte) : M unit :=
  fun w =>
    (Ok tt,
     {| files := <[name := content]> (files w);
        open_handles := open_handles w;
        temp_count := temp_count w;
        rng_draws := rng_draws w |}).

Definition read_file (name : string) : M (list Byte.byte) :=
  fun w =>
    match files w !! name with
    | Some content => (Ok content, w)
    | None => (Raise (FileNotFoundError name), w)
    end.

(** [with resource as x: body]: the exit handler runs on every way out of
    the body, and an exception of the body goes on. *)
Definition with_block {A} (body : M A) (on_exit : M unit) : M A :=
  fun w =>
    let '(r, w1) := body w in
    let '(_, w2) := on_exit w1 in
    (r, w2).

Section Generator.
Variable E : externals.
Local Open Scope float_scope.

(** [np.random.rand(k)] *)
Definition random_rand_n (k : nat) : M (list float) :=
  fun w =>
    (Ok (map (random_rand E) (seq (rng_draws w) k)),
     {| files := files w;
        open_handles := open_handles w;
        temp_count := temp_count w;
        rng_draws := (rng_draws w + k)%nat |}).

(** [duration or sound_params['duration']] *)
Definition duration_or (duration : option float) (dflt : float) : float :=
  match duration with
  | Some d => if F64.truthy d then d else dflt
  | None => dflt
  end.

(** A Python slice [start:stop] of a sequence of length [n]. *)
Definition slice_bounds (n start stop : Z) : Z * Z :=
  let norm i := if (i <? 0)%Z then Z.max 0 (i + n) else Z.min i n in
  let lo := norm start in
  (lo, Z.max lo (norm stop)).

(** [audio[start:stop] += chime] *)
Definition slice_iadd (audio : list float) (start stop : Z) (chime : list float)
  : result (list float) :=
  let '(lo, hi) := slice_bounds (Z.of_nat (length audio)) start stop in
  let lo := Z.to_nat lo in
  let hi := Z.to_nat hi in
  let target := firstn (hi - lo) (skipn lo audio) in
  if (length chime =? length target)%nat then
    Ok (firstn lo audio ++ F64.vadd target chime ++ skipn hi audio)%list
  else
    match chime with
    | [c] => Ok (firstn lo audio ++ map (fun v => v + c) target ++ skipn hi audio)%list
    | _ => Raise (ValueError "operands could not be broadcast together")
    end.

Definition tone (c : float) (t : list float) : list float :=
  map (fun ti => np_sin E (c * ti)) t.

Definition crystal_bowls (p : sound_params) (t : list float) : list float :=
  fold_left
    (fun audio freq =>
       let audio := F64.vadd audio (map (fun v => v * 0.5) (tone (2 * F64.np_pi * freq) t)) in
       let audio := F64.vadd audio (map (fun v => v * 0.25) (tone (2 * F64.np_pi * freq * 2) t)) in
       F64.vadd audio (map (fun v => v * 0.125) (tone (2 * F64.np_pi * freq * 3) t)))
    (frequencies p) (F64.zeros_like t).

Definition om_chant (p : sound_params) (t : list float) : result (list float) :=
  match base_freq p with
  | None => Raise (KeyError "base_freq")
  | Some base =>
      Ok (fold_left
            (fun audio harmonic =>
               F64.vadd audio
                 (map (fun v => v * (1 / F64.of_int harmonic))
                    (tone (2 * F64.np_pi * base * F64.of_int harmonic) t)))
            (harmonics p) (tone (2 * F64.np_pi * base) t))
  end.

(** One onset of one chime. *)
Definition chime_at (freq : float) (t audio : list float) (start : float)
  : result (list float) :=
  let? idx := F64.py_int (start * F64.of_int sample_rate) in
  if (idx + 44100 <? Z.of_nat (length audio))%Z then
    let t1 := firstn (Z.to_nat 44100) t in
    let chime :=
      zip_with mul (tone (2 * F64.np_pi * freq) t1)
                   (map (fun ti => np_exp E (- ti * 5)) t1) in
    slice_iadd audio idx (idx + 44100) chime
  else Ok audio.

Fixpoint chime_onsets (freq : float) (t audio : list float) (starts : list float)
  : result (list float) :=
  match starts with
  | [] => Ok audio
  | start :: starts' =>
      let? audio := chime_at freq t audio start in
      chime_onsets freq t audio starts'
  end.

Fixpoint wind_chimes_loop (freqs : list float) (duration : float) (t audio : list float)
  : M (list float) :=
  match freqs with
  | [] => ret audio
  | freq :: freqs' =>
      let* r := random_rand_n 5 in
      let start_times := map (fun r => r * duration) r in
      let* audio := lift (chime_onsets freq t audio start_times) in
      wind_chimes_loop freqs' duration t audio
  end.

Definition wind_chimes (p : sound_params) (duration : float) (t : list float)
  : M (list float) :=
  wind_chimes_loop (frequencies p) duration t (F64.zeros_like t).

(** The if/elif chain on [sound_type]. *)
Definition synthesize (sound_type : string) (p : sound_params)
    (duration : float) (t : list float) : M (list float) :=
  if bool_decide (sound_type = "crystal_bowls") then ret (crystal_bowls p t)
  else if bool_decide (sound_type = "om_chant") then lift (om_chant p t)
  else if bool_decide (sound_type = "wind_chimes") then wind_chimes p duration t
  else raise (UnboundLocalError "audio").

(** Lines 145-170 of [generate_special_sound]: the waveform before it is
    normalized. *)
Definition raw_preset (sound_type : string) (p : sound_params)
    (duration : option float) : M (list float) :=
  let duration := duration_or duration (preset_duration p) in
  let* n := lift (F64.py_int (F64.of_int sample_rate * duration)) in
  let* t := lift (F64.linspace (capacity E) 0 duration n) in
  synthesize sound_type p duration t.

(** ... and after [audio = audio / np.max(np.abs(audio))]: the mono
    waveform handed to the spatial renderer. *)
Definition normalized_preset (sound_type : string) (p : sound_params)
    (duration : option float) : M (list float) :=
  let* audio := raw_preset sound_type p duration in
  let* m := lift (F64.np_max (F64.np_abs audio)) in
  ret (map (fun v => v / m) audio).

Definition generate_special_sound (sound_type : string) (duration : option float)
  : M stereo :=
  match special_sounds !! sound_type with
  | None => raise (ValueError ("Unknown sound type: " +:+ sound_type))
  | Some p =>
      let* audio := normalized_preset sound_type p duration in
      lift (create_spatial_effect E (Mono audio) (preset_position p)
              (Some circular_movement))
  end.

Fixpoint atmos_loop (sounds : list string) (count : nat) (duration : float)
    (output : stereo) : M stereo :=
  match sounds with
  | [] => ret output
  | sound_type :: sounds' =>
      let* sound := generate_special_sound sound_type (Some duration) in
      let sound := fit_length sound (length output) in
      let output :=
        add_stereo output (scale (1.0 / F64.of_int (Z.of_nat count)) sound) in
      atmos_loop sounds' count duration output
  end.

Definition create_atmos_mix (sounds : list string) (duration : float) : M stereo :=
  let* n := lift (F64.py_int (F64.of_int sample_rate * duration)) in
  let* output := lift (np_zeros (capacity E) n) in
  atmos_loop sounds (length sounds) duration output.

(** The decoded samples as float32, divided by [np.iinfo(np.int16).max]. *)
Definition rescale_pcm (s : Z) : spec_float :=
  F32.div (F32.of_int s) (F32.of_int 32767).

Definition generate_voice_guidance (script : string)
  : M (list (spec_float * spec_float)) :=
  let* temp_file := named_temporary_file ".mp3" in
  let* samples :=
    with_block
      (let* speech := lift (gtts_speech E script) in
       run write_file temp_file speech in
       let* content := read_file temp_file in
       lift (mp3_samples E content))
      (close_handle temp_file) in
  let samples := map rescale_pcm samples in
  (* get_array_of_samples() is one-dimensional *)
  ret (column_stack samples samples).

(** Python truthiness of the optional arguments. *)
Definition sounds_given (special_sounds : option (list string)) : bool :=
  match special_sounds with
  | Some (_ :: _) => true
  | _ => false
  end.

Definition script_given (custom_script : option string) : bool :=
  match custom_script with
  | Some s => negb (bool_decide (s = ""))
  | None => false
  end.

(** The [else] branch of the base bed: one tone at the middle of the
    band, on both channels. *)
Definition fallback_bed (duration : float) (target_state : string) : M stereo :=
  let* n := lift (F64.py_int (F64.of_int sample_rate * duration)) in
  let* t := lift (F64.linspace (capacity E) 0 duration n) in
  match brainwave_states !! target_state with
  | None => raise (KeyError target_state)
  | Some band =>
      let freq := np_mean band in
      let base_audio := tone (2 * F64.np_pi * freq) t in
      ret (column_stack base_audio base_audio)
  end.

(** The voice track laid over the bed. *)
Definition voice_overlay (base_audio : stereo) (custom_script : option string)
  : M stereo :=
  if script_given custom_script then
    let* voice_audio := generate_voice_guidance (default "" custom_script) in
    let voice_audio :=
      map (fun '(l, r) => (F32.to_f64 l, F32.to_f64 r)) voice_audio in
    let* voice_audio :=
      lift (create_spatial_effect E (Stereo voice_audio) (2.5, 2.5, 1.7) None) in
    let voice_audio := fit_length voice_audio (length base_audio) in
    ret (add_stereo voice_audio (scale 0.3 base_audio))
  else ret base_audio.

(** [create_guided_meditation] up to the final normalization. *)
Definition mix_session (duration : float) (target_state : string)
    (special : option (list string)) (custom_script : option string) : M stereo :=
  let* base_audio :=
    if sounds_given special then create_atmos_mix (default [] special) duration
    else fallback_bed duration target_state in
  voice_overlay base_audio custom_script.

Definition create_guided_meditation (duration : float) (target_state : string)
    (special : option (list string)) (custom_script : option string) : M stereo :=
  let* mixed_audio := mix_session duration target_state special custom_script in
  lift (peak_normalize mixed_audio).
End Generator.

(** ** Stand-ins for the collaborators

    Concrete, computable collaborators on which the pipeline can be run.
    They are used in examples only: the theorems quantify over every
    [externals]. *)

Module Standin.
Local Open Scope float_scope.

(** Rounding to the nearest integer by the 1.5 * 2^52 trick. *)
Definition rint (x : float) : float := (x + 6755399441055744) - 6755399441055744.

(** A degree-9 polynomial after reduction to [-pi, pi]; 0 where the
    argument is not a number. *)
Definition sin (x : float) : float :=
  let two_pi := 2 * F64.np_pi in
  let r := x - rint (x / two_pi) * two_pi in
  let r2 := r * r in
  let y := r * (1 - r2 / 6 * (1 - r2 / 20 * (1 - r2 / 42 * (1 - r2 / 72)))) in
  if is_finite y then y else 0.

Definition cos (x : float) : float := sin (x + F64.np_pi / 2).

(** 1 / (1 - x + x^2/2) approximates exp on small negative arguments. *)
Definition exp (x : float) : float := 1 / (1 - x + x * x / 2).

(** A room without walls: both microphones hear the source as it is. *)
Definition dry_room (_ : position) (signal : list float) : result stereo :=
  Ok (map (fun v => (v, v)) signal).

(** The rotation about the z axis by the angle [z], on the first two
    components; the other components stay. *)
Definition rotate_z (xyz : position) (v : list float) : result (list float) :=
  let '(_, _, z) := xyz in
  match v with
  | a :: b :: rest => Ok (a * cos z - b * sin z :: a * sin z + b * cos z :: rest)
  | _ => Ok v
  end.

Definition rand (k : nat) : float :=
  F64.of_int ((Z.of_nat k * 7919 + 104729) mod 1000) / 1000.

Definition speech (script : string) : result (list Byte.byte) :=
  Ok (map (fun _ => Byte.xff) (String.list_byte_of_string script) ++ [Byte.x00; Byte.x80])%list.

(** One sample per byte, spread over the int16 range. *)
Definition decode (content : list Byte.byte) : result (list Z) :=
  Ok (map (fun b => Z.of_N (Byte.to_N b) * 257 - 32768)%Z content).

Definition collaborators : externals :=
  {| np_sin := sin; np_cos := cos; np_exp := exp;
     room_simulate := dry_room; rotation_apply := rotate_z;
     random_rand := rand; gtts_speech := speech; mp3_samples := decode;
     spare_capacity := 0 |}.

Definition fresh : world :=
  {| files := ∅; open_handles := ∅; temp_count := 0; rng_draws := 0 |}.
End Standin.

(** A decoder that rejects every file. *)
Definition failing_decoder : externals :=
  {| np_sin := Standin.sin; np_cos := Standin.cos; np_exp := Standin.exp;
     room_simulate := Standin.dry_room; rotation_apply := Standin.rotate_z;
     random_rand := Standin.rand; gtts_speech := Standin.speech;
     mp3_samples := fun _ => Raise (EngineError "could not decode");
     spare_capacity := 0 |}.

(** Collaborators whose room cannot be set up: every rendering raises. *)
Definition failing_room : externals :=
  {| np_sin := Standin.sin; np_cos := Standin.cos; np_exp := Standin.exp;
     room_simulate := fun _ _ => Raise (EngineError "could not set up the room");
     rotation_apply := Standin.rotate_z;
     random_rand := Standin.rand; gtts_speech := Standin.speech;
     mp3_samples := Standin.decode;
     spare_capacity := 0 |}.

(** ** Ranges of int16 and of the rescaled voice samples *)

Definition int16 (s : Z) : Prop := -32768 <= s <= 32767.

Definition f32_between (lo hi x : spec_float) : bool :=
  F32.leb lo x && F32.leb x hi.

(** One turn of the loop of [create_atmos_mix] on a rendered sound. *)
Definition accumulate (count : nat) (output sound : stereo) : stereo :=
  add_stereo output
    (scale (1.0 / F64.of_int (Z.of_nat count)) (fit_length sound (length output))).

(** The renderings [create_atmos_mix] asks for: one call of
    [generate_special_sound] for each identifier, in the order of the list,
    each on the world the one before has left. *)
Fixpoint renderings (E : externals) (sounds : list string) (duration : float)
  : M (list stereo) :=
  match sounds with
  | [] => ret []
  | sound_type :: sounds' =>
      let* sound := generate_special_sound E sound_type (Some duration) in
      let* rest := renderings E sounds' duration in
      ret (sound :: rest)
  end.

(** ** Finite and silent buffers *)

Definition all_finite (l : list float) : Prop :=
  Forall (fun x => is_finite x = true) l.

(** Every sample is [+0] or [-0]. *)
Definition silent (l : list float) : Prop :=
  Forall (fun x => is_zero x = true) l.

Definition not_silent (l : list float) : Prop :=
  Exists (fun x => is_zero x = false) l.


(** ** Inputs of the room engine *)

(** [audio[:, 0]] once a mono input has been stacked: the signal of the
    source that is added to the room. *)
Definition source_signal (audio : ndarray) : list float :=
  match audio with
  | Mono a => a
  | Stereo a => map fst a
  end.

(** ** Effects on the file system

    The two worlds agree on everything but the random generator. *)

Definition same_files (w w' : world) : Prop :=
  files w' = files w
  /\ open_handles w' = open_handles w
  /\ temp_count w' = temp_count w.
(** * Properties *)

(** ** The numpy helpers on small inputs *)

Example py_int_trunc : F64.py_int (-2.75)%float = Ok (-2).
Proof. reflexivity. Qed.

Example linspace_5 :
  F64.linspace least_capacity 0 1 5 = Ok [0; 0.25; 0.5; 0.75; 1]%float.
Proof. reflexivity. Qed.

Example linspace_1 : F64.linspace least_capacity 0 7 1 = Ok [0%float].
Proof. reflexivity. Qed.

Example linspace_negative :
  F64.linspace least_capacity 0 (-1) (-44100)
  = Raise (ValueError "Number of samples, -44100, must be non-negative.").
Proof. vm_compute. reflexivity. Qed.

(** A grid of 2^61 points has more bytes than an array can have; one of a
    hundred minutes does not fit a machine with no room to spare. *)
Example linspace_too_large :
  F64.linspace least_capacity 0 1 (2 ^ 61)
  = Raise (ValueError "Maximum allowed size exceeded")
  /\ F64.linspace least_capacity 0 6000 (6000 * 44100)
     = Raise (MemoryError "Unable to allocate array").
Proof. split; reflexivity. Qed.

Example f32_half : F32.to_f64 (F32.div (F32.of_int 1) (F32.of_int 2)) = 0.5%float.
Proof. reflexivity. Qed.

Lemma length_arange (len : nat) : forall start, length (F64.arange start len) = len.
Proof. induction len as [| len IH]; intros start; cbn; [reflexivity |]. now rewrite IH. Qed.

Lemma length_linspace_points (start stop : float) (num : Z) :
  length (F64.linspace_points start stop num) = Z.to_nat num.
Proof.
  unfold F64.linspace_points.
  set (y := map (fun v => (v + start)%float) _).
  assert (Hy : length y = Z.to_nat num).
  { subst y. rewrite length_map.
    destruct (Z.ltb 0 (num - 1)); [destruct (PrimFloat.eqb _ _) |];
      now rewrite length_map, length_map, length_arange. }
  destruct (Z.ltb_spec 1 num) as [Hnum | Hnum]; [| exact Hy].
  rewrite length_app. cbn [length].
  destruct y as [| v y]; [cbn in Hy; lia |].
  rewrite <- Hy. cbn [length].
  assert (Hrl : forall (l : list float) (a : float),
             length (removelast (a :: l)) = length l).
  { clear. induction l as [| b l IH]; intros a; [reflexivity |].
    change (removelast (a :: b :: l)) with (a :: removelast (b :: l)).
    cbn [length]. now rewrite IH. }
  rewrite Hrl. lia.
Qed.

(** ** Room for the arrays *)

Lemma capacity_least (E : externals) : least_capacity <= capacity E.
Proof. unfold capacity. lia. Qed.

Lemma allocate_inv (room count : Z) :
  F64.allocate room count = Ok tt ->
  8 * count <= F64.npy_max_intp /\ count <= room.
Proof.
  unfold F64.allocate.
  destruct (Z.ltb_spec F64.npy_max_intp (8 * count)); [discriminate |].
  destruct (Z.ltb_spec room count); [discriminate |]. now split.
Qed.

Lemma allocate_ok (room count : Z) :
  8 * count <= F64.npy_max_intp -> count <= room -> F64.allocate room count = Ok tt.
Proof.
  intros Hb Hr. unfold F64.allocate.
  destruct (Z.ltb_spec F64.npy_max_intp (8 * count)); [lia |].
  destruct (Z.ltb_spec room count); [lia | reflexivity].
Qed.

(** What fits the least machine fits every machine. *)
Lemma allocate_least (E : externals) (count : Z) :
  count <= least_capacity -> F64.allocate (capacity E) count = Ok tt.
Proof.
  intros H. pose proof (capacity_least E) as Hc. apply allocate_ok; [| lia].
  assert (8 * least_capacity <= F64.npy_max_intp) by (vm_compute; discriminate). lia.
Qed.

Lemma linspace_nonneg (room : Z) (start stop : float) (num : Z) :
  0 <= num -> F64.allocate room num = Ok tt ->
  F64.linspace room start stop num = Ok (F64.linspace_points start stop num).
Proof.
  intros H Ha. unfold F64.linspace. destruct (Z.ltb_spec num 0); [lia |].
  now rewrite Ha.
Qed.

Lemma linspace_inv (room : Z) (start stop : float) (num : Z) (t : list float) :
  F64.linspace room start stop num = Ok t ->
  0 <= num /\ F64.allocate room num = Ok tt /\ t = F64.linspace_points start stop num.
Proof.
  unfold F64.linspace. destruct (Z.ltb_spec num 0); [discriminate |].
  destruct (F64.allocate room num) as [[] | e]; cbn [rbind]; [| discriminate].
  intros [= <-]. repeat split. assumption.
Qed.

Lemma linspace_least (E : externals) (start stop : float) (num : Z) :
  0 <= num <= least_capacity ->
  F64.linspace (capacity E) start stop num = Ok (F64.linspace_points start stop num).
Proof.
  intros H. apply linspace_nonneg; [lia | apply allocate_least; lia].
Qed.

Lemma np_zeros_inv (room n : Z) (output : stereo) :
  np_zeros room n = Ok output ->
  0 <= n /\ F64.allocate room (2 * n) = Ok tt
  /\ output = repeat (0, 0)%float (Z.to_nat n).
Proof.
  unfold np_zeros. destruct (Z.ltb_spec n 0); [discriminate |].
  destruct (F64.allocate room (2 * n)) as [[] | e]; cbn [rbind]; [| discriminate].
  intros [= <-]. repeat split. assumption.
Qed.

Lemma np_zeros_ok (room n : Z) :
  0 <= n -> F64.allocate room (2 * n) = Ok tt ->
  np_zeros room n = Ok (repeat (0, 0)%float (Z.to_nat n)).
Proof.
  intros H Ha. unfold np_zeros. destruct (Z.ltb_spec n 0); [lia |]. now rewrite Ha.
Qed.


(** ** Session composer: which bed is chosen *)

Lemma bind_ok {A B} (m : M A) (k : A -> M B) (w w' : world) (a : A) :
  m w = (Ok a, w') -> bind m k w = k a w'.
Proof. intros H. unfold bind. now rewrite H. Qed.

Lemma bind_raise {A B} (m : M A) (k : A -> M B) (w w' : world) (e : exn) :
  m w = (Raise e, w') -> bind m k w = (Raise e, w').
Proof. intros H. unfold bind. now rewrite H. Qed.

Lemma bind_inv_ok {A B} (m : M A) (k : A -> M B) (w w' : world) (b : B) :
  bind m k w = (Ok b, w') ->
  exists a w1, m w = (Ok a, w1) /\ k a w1 = (Ok b, w').
Proof.
  unfold bind. destruct (m w) as [[a | e] w1]; intros H.
  - now exists a, w1.
  - discriminate.
Qed.

Lemma lift_inv_ok {A} (r : result A) (w w' : world) (a : A) :
  lift r w = (Ok a, w') -> r = Ok a /\ w' = w.
Proof. unfold lift. intros H. now inversion H. Qed.

(** C10. An empty list of special sounds is false like [None]: the session
    is built on the fallback tone, and the mix of special sounds is not
    computed. *)
Theorem empty_special_sounds_is_fallback (E : externals) (duration : float)
    (target_state : string) (custom_script : option string) :
  create_guided_meditation E duration target_state (Some []) custom_script
  = create_guided_meditation E duration target_state None custom_script
  /\ create_guided_meditation E duration target_state (Some []) custom_script
     = (let* mixed_audio :=
          (let* base_audio := fallback_bed E duration target_state in
           voice_overlay E base_audio custom_script) in
        lift (peak_normalize mixed_audio)).
Proof.
  split; reflexivity.
Qed.

Lemma fallback_bed_unknown_band (E : externals) (duration : float)
    (target_state : string) (n : Z) (w : world) :
  brainwave_states !! target_state = None ->
  F64.py_int (F64.of_int sample_rate * duration) = Ok n ->
  0 <= n -> F64.allocate (capacity E) n = Ok tt ->
  fallback_bed E duration target_state w = (Raise (KeyError target_state), w).
Proof.
  intros Hband Hn Hpos Hroom. unfold fallback_bed.
  erewrite bind_ok by (unfold lift; rewrite Hn; reflexivity).
  rewrite (linspace_nonneg _ _ _ _ Hpos Hroom).
  erewrite bind_ok by reflexivity.
  now rewrite Hband.
Qed.

(** The errors of [int()] and of [np.linspace] are no [KeyError]. *)
Lemma py_int_no_key_error (x : float) (key : string) :
  F64.py_int x <> Raise (KeyError key).
Proof. unfold F64.py_int. destruct (Prim2SF x); discriminate. Qed.

Lemma linspace_no_key_error (room : Z) (start stop : float) (num : Z) (key : string) :
  F64.linspace room start stop num <> Raise (KeyError key).
Proof.
  unfold F64.linspace, F64.allocate. destruct (Z.ltb num 0); [discriminate |].
  destruct (Z.ltb F64.npy_max_intp (8 * num)); [discriminate |].
  destruct (Z.ltb room num); discriminate.
Qed.

(** C2, as the code has it. With no special sound asked for, an unknown
    brainwave band makes the call fail with [KeyError] naming it, the world
    untouched, exactly when the time grid of line 249 can be built first:
    [int(sample_rate * duration)] is defined, not negative, and
    [np.linspace] has room for that many points. With special sounds the
    band is never looked up, so the call does the same for every
    [target_state]. *)
Theorem unknown_band_fails_on_fallback_only (E : externals) (duration : float)
    (target_state : string) (special : option (list string))
    (custom_script : option string) (w : world) :
  brainwave_states !! target_state = None ->
  (sounds_given special = false ->
   (create_guided_meditation E duration target_state special custom_script w
    = (Raise (KeyError target_state), w)
    <-> exists n,
          F64.py_int (F64.of_int sample_rate * duration) = Ok n
          /\ 0 <= n
          /\ F64.allocate (capacity E) n = Ok tt))
  /\ (sounds_given special = true ->
      forall other : string,
        create_guided_meditation E duration target_state special custom_script w
        = create_guided_meditation E duration other special custom_script w).
Proof.
  intros Hband. split; intros Hs.
  - unfold create_guided_meditation, mix_session. rewrite Hs. split.
    + unfold fallback_bed, bind, lift.
      destruct (F64.py_int (F64.of_int sample_rate * duration)) as [n | e] eqn:Hn.
      * destruct (F64.linspace (capacity E) 0 duration n) as [t | e] eqn:Ht.
        -- intros _. apply linspace_inv in Ht. destruct Ht as (Hpos & Hroom & _).
           now exists n.
        -- intros [= ->]. now apply linspace_no_key_error in Ht.
      * intros [= ->]. now apply py_int_no_key_error in Hn.
    + intros (n & Hn & Hpos & Hroom).
      erewrite bind_raise; [reflexivity |].
      erewrite bind_raise; [reflexivity |].
      now apply fallback_bed_unknown_band with (n := n).
  - intros other. unfold create_guided_meditation, mix_session.
    now rewrite Hs.
Qed.

(** C2: with a special sound asked for, an unknown band goes unnoticed,
    in a room that renders as in one that cannot be set up: the call
    returns a session in the first and fails with the error of the room in
    the second, and no error names the band. *)
Lemma unknown_band_with_special_sounds_returns :
  brainwave_states !! "bogus" = None
  /\ is_ok (fst (create_guided_meditation Standin.collaborators 0.0001 "bogus"
                   (Some ["om_chant"]) None Standin.fresh)) = true
  /\ fst (create_guided_meditation failing_room 0.0001 "bogus"
            (Some ["om_chant"]) None Standin.fresh)
     = Raise (EngineError "could not set up the room").
Proof. repeat split; vm_compute; reflexivity. Qed.

(** With a negative duration the time grid fails first, and the error is
    about the number of samples. *)
Example unknown_band_negative_duration :
  fst (create_guided_meditation Standin.collaborators (-1) "bogus" None None Standin.fresh)
  = Raise (ValueError "Number of samples, -44100, must be non-negative.").
Proof. vm_compute. reflexivity. Qed.

(** With a duration of 1e300 seconds the time grid cannot be built, and
    the error is that of [np.linspace], not one about the band. *)
Example unknown_band_huge_duration :
  fst (create_guided_meditation Standin.collaborators 1e300 "bogus" None None Standin.fresh)
  = Raise (ValueError "Maximum allowed size exceeded").
Proof. vm_compute. reflexivity. Qed.

Lemma unknown_band_fails_on_fallback_only_witness :
  create_guided_meditation Standin.collaborators 0.0001 "bogus" None None Standin.fresh
  = (Raise (KeyError "bogus"), Standin.fresh).
Proof.
  refine (proj2 (proj1 (unknown_band_fails_on_fallback_only Standin.collaborators 0.0001
                          "bogus" None None Standin.fresh _) _) _).
  - vm_compute; reflexivity.
  - reflexivity.
  - exists 4. split; [vm_compute; reflexivity | split; [lia | reflexivity]].
Defined.

(** ** Voice synthesizer: the temporary file *)

Lemma closed_after_exit (name : string) (handles : gset string) :
  name ∉ ({[name]} ∪ handles) ∖ {[name]}.
Proof. intros H. apply elem_of_difference in H. destruct H as [_ H]. apply H, elem_of_singleton. reflexivity. Qed.

Lemma voice_guidance_world (E : externals) (script : string) (w : world) :
  let temp_file := temp_name (temp_count w) ".mp3" in
  let w' := snd (generate_voice_guidance E script w) in
  (exists content, files w' !! temp_file = Some content)
  /\ temp_file ∉ open_handles w'.
Proof.
  cbn zeta. unfold generate_voice_guidance, bind, named_temporary_file, with_block,
    close_handle, lift, write_file, read_file, ret.
  destruct (gtts_speech E script) as [speech | e]; cbn.
  - rewrite lookup_insert_eq.
    destruct (mp3_samples E speech) as [pcm | e]; cbn.
    + split; [rewrite lookup_insert_eq; exists speech; reflexivity | apply closed_after_exit].
    + split; [rewrite lookup_insert_eq; exists speech; reflexivity | apply closed_after_exit].
  - split; [rewrite lookup_insert_eq; exists []; reflexivity | apply closed_after_exit].
Qed.

(** C3, as the code has it. The file is opened with [delete=False], so
    leaving the [with] block closes the handle and removes nothing: when
    [generate_voice_guidance] returns or raises, the temporary file it
    created is still there, and its handle is closed. *)
Theorem temp_file_outlives_voice_guidance (E : externals) (script : string) (w : world) :
  let temp_file := temp_name (temp_count w) ".mp3" in
  let w' := snd (generate_voice_guidance E script w) in
  is_Some (files w' !! temp_file) /\ temp_file ∉ open_handles w'.
Proof.
  exact (voice_guidance_world E script w).
Qed.

(** C3: after a call that returns, and after one whose decoding fails, the
    temporary file has not been deleted. *)
Lemma temp_file_not_deleted :
  (is_ok (fst (generate_voice_guidance Standin.collaborators "hi" Standin.fresh)) = true
   /\ is_Some (files (snd (generate_voice_guidance Standin.collaborators "hi" Standin.fresh))
                 !! "/tmp/tmp0.mp3"))
  /\ (is_ok (fst (generate_voice_guidance failing_decoder "hi" Standin.fresh)) = false
      /\ is_Some (files (snd (generate_voice_guidance failing_decoder "hi" Standin.fresh))
                    !! "/tmp/tmp0.mp3")).
Proof.
  split; split.
  - reflexivity.
  - apply (voice_guidance_world Standin.collaborators "hi" Standin.fresh).
  - reflexivity.
  - apply (voice_guidance_world failing_decoder "hi" Standin.fresh).
Qed.

(** ** Spatial renderer: the movement loop *)

Example movement_grid_of_two_rows (E : externals) (row0 row1 : list float) :
  movement_times E [row0; row1] = Ok [0; 2 / 44100]%float.
Proof. unfold movement_times. now rewrite linspace_least by (vm_compute; split; discriminate). Qed.

Lemma map_fst_duplicate (a : list float) : map fst (map (fun v => (v, v)) a) = a.
Proof. induction a as [| v a IH]; cbn; [reflexivity |]. now rewrite IH. Qed.

(** C1, on the code. [create_spatial_effect] hands the output of
    [simulate()] to [_apply_movement] before it is transposed, one row per
    microphone: whatever the number of samples, the loop runs over the two
    rows, on the two instants of [linspace(0, 2/44100, 2)], and each turn
    gives a whole microphone signal to the rotation. *)
Theorem movement_loop_covers_rows_not_samples (E : externals) (audio : list float)
    (pos : position) :
  create_spatial_effect E (Mono audio) pos (Some circular_movement)
  = (let? mics := room_simulate E pos audio in
     let t := [0; 2 / 44100]%float in
     let angle := map (fun ti => (2 * F64.np_pi * 0.2 * ti)%float) t in
     let xyz := Some (map (np_cos E) angle, map (np_sin E) angle, [0; 0]%float) in
     let? output :=
       movement_loop E [0; 1]%nat xyz
         [map fst mics; map snd mics]
         [F64.zeros_like (map fst mics); F64.zeros_like (map snd mics)] in
     Ok (transpose output)).
Proof.
  unfold create_spatial_effect. rewrite map_fst_duplicate.
  destruct (room_simulate E pos audio) as [mics | e]; [| reflexivity].
  cbn [rbind].
  replace (movement_given (Some circular_movement)) with true by (vm_compute; reflexivity).
  unfold _apply_movement. rewrite movement_grid_of_two_rows. cbn [rbind].
  replace (dict_get circular_movement "pattern" (PStr "circular"))
    with (PStr "circular") by (vm_compute; reflexivity).
  replace (dict_get circular_movement "speed" (PNum 0.5%float))
    with (PNum 0.2%float) by (vm_compute; reflexivity).
  reflexivity.
Qed.

(** On a three-sample signal in the stand-in room, the circular movement
    leaves the third sample of either channel as rendered, and turns the
    first two samples of a channel into each other. *)
Example movement_on_three_samples :
  create_spatial_effect Standin.collaborators (Mono [1; 2; 3]%float)
    (2.5, 2.5, 1.5)%float (Some circular_movement)
  = Ok [(1.0000035425842859, 1.0000035425842859);
        (2.0000070851685718, 2.0000070851685718);
        (3, 3)]%float
  /\ create_spatial_effect Standin.collaborators (Mono [1; 2; 3]%float)
       (2.5, 2.5, 1.5)%float None
     = Ok [(1, 1); (2, 2); (3, 3)]%float.
Proof. split; vm_compute; reflexivity. Qed.

(** ** Mix of special sounds: the length of the output *)

Lemma length_pad_rows (a : stereo) (k : nat) :
  length (pad_rows a k) = (length a + k)%nat.
Proof. unfold pad_rows. now rewrite length_app, repeat_length. Qed.

Lemma length_fit_length (sound : stereo) (n : nat) :
  length (fit_length sound n) = n.
Proof.
  unfold fit_length. destruct (Nat.ltb_spec (length sound) n) as [Hlt | Hge].
  - rewrite length_pad_rows. lia.
  - rewrite length_firstn. lia.
Qed.

Lemma length_scale (c : float) (a : stereo) : length (scale c a) = length a.
Proof. apply length_map. Qed.

Lemma length_add_stereo (a b : stereo) :
  length a = length b -> length (add_stereo a b) = length a.
Proof. intros H. unfold add_stereo. rewrite length_zip_with. lia. Qed.

Lemma length_accumulate (count : nat) (output sound : stereo) :
  length (accumulate count output sound) = length output.
Proof.
  unfold accumulate. apply length_add_stereo.
  now rewrite length_scale, length_fit_length.
Qed.

Lemma length_fold_accumulate (count : nat) (rendered : list stereo) :
  forall output,
    length (fold_left (accumulate count) rendered output) = length output.
Proof.
  induction rendered as [| sound rendered IH]; intros output; cbn; [reflexivity |].
  now rewrite IH, length_accumulate.
Qed.

(** The loop of [create_atmos_mix] renders the sounds one after the other
    and accumulates each rendering as it comes; accumulating cannot fail,
    so the loop is the accumulation of the renderings. *)
Lemma atmos_loop_renderings (E : externals) (count : nat) (duration : float)
    (sounds : list string) :
  forall output w,
    atmos_loop E sounds count duration output w
    = (let* rendered := renderings E sounds duration in
       ret (fold_left (accumulate count) rendered output)) w.
Proof.
  induction sounds as [| sound_type sounds IH]; intros output w;
    cbn [atmos_loop renderings]; [reflexivity |].
  unfold bind.
  destruct (generate_special_sound E sound_type (Some duration) w) as [[sound | e] w1];
    [| reflexivity].
  rewrite IH. unfold bind, ret.
  destruct (renderings E sounds duration w1) as [[rest | e] w2]; reflexivity.
Qed.

Lemma length_renderings (E : externals) (duration : float) (sounds : list string) :
  forall w w' rendered,
    renderings E sounds duration w = (Ok rendered, w') ->
    length rendered = length sounds.
Proof.
  induction sounds as [| sound_type sounds IH]; intros w w' rendered; cbn [renderings].
  - unfold ret. now intros [= <- _].
  - intros H. apply bind_inv_ok in H. destruct H as (sound & w1 & _ & H).
    apply bind_inv_ok in H. destruct H as (rest & w2 & Hrest & H).
    apply IH in Hrest. inversion H; subst. cbn. congruence.
Qed.

Lemma atmos_loop_inv (E : externals) (count : nat) (duration : float)
    (sounds : list string) :
  forall output w out w',
    atmos_loop E sounds count duration output w = (Ok out, w') ->
    exists rendered,
      renderings E sounds duration w = (Ok rendered, w')
      /\ length rendered = length sounds
      /\ out = fold_left (accumulate count) rendered output.
Proof.
  intros output w out w' H. rewrite atmos_loop_renderings in H.
  apply bind_inv_ok in H. destruct H as (rendered & w1 & Hr & H).
  inversion H; subst. exists rendered. repeat split; [assumption |].
  now apply length_renderings in Hr.
Qed.

Lemma create_atmos_mix_inv (E : externals) (sounds : list string) (duration : float)
    (w w' : world) (out : stereo) :
  create_atmos_mix E sounds duration w = (Ok out, w') ->
  exists n rendered,
    F64.py_int (F64.of_int sample_rate * duration) = Ok n
    /\ 0 <= n
    /\ F64.allocate (capacity E) (2 * n) = Ok tt
    /\ renderings E sounds duration w = (Ok rendered, w')
    /\ length rendered = length sounds
    /\ out = fold_left (accumulate (length sounds)) rendered
               (repeat (0, 0)%float (Z.to_nat n)).
Proof.
  unfold create_atmos_mix. intros H.
  apply bind_inv_ok in H. destruct H as (n & w1 & Hn & H).
  apply lift_inv_ok in Hn. destruct Hn as [Hn ->].
  apply bind_inv_ok in H. destruct H as (output & w1 & Hz & H).
  apply lift_inv_ok in Hz. destruct Hz as [Hz ->].
  apply np_zeros_inv in Hz. destruct Hz as (Hpos & Hroom & ->).
  apply atmos_loop_inv in H. destruct H as (rendered & Hr & Hlen & ->).
  now exists n, rendered.
Qed.



(** The renderings of the run above are not silence: the second frame of
    the first one (the crystal bowls) is not zero. So the accumulation
    does depend on what [generate_special_sound] returns. *)
Example renderings_are_heard :
  exists first rest,
    fst (renderings Standin.collaborators
           ["crystal_bowls"; "om_chant"; "wind_chimes"] 0.0001 Standin.fresh)
    = Ok (first :: rest)
    /\ is_zero (fst (nth 1 first (0, 0)%float)) = false.
Proof. eexists _, _. split; vm_compute; reflexivity. Qed.

(** ** Binary floating-point arithmetic behind the normalization

    The facts about division that peak normalization and the rescaling of
    the voice samples rest on, proved on [SpecFloat]'s definition of a
    format and carried to the primitive floats by the specification of the
    primitives. *)

Module BinaryFacts.
Import Binary.

(** *** Digits and powers of two *)

Lemma pow2_pos (n : Z) : 0 <= n -> 0 < 2 ^ n.
Proof. intros H. apply Z.pow_pos_nonneg; lia. Qed.

Lemma digits2_pos_bounds (p : positive) :
  2 ^ (Zpos (digits2_pos p) - 1) <= Zpos p < 2 ^ Zpos (digits2_pos p).
Proof.
  induction p as [p IH | p IH |]; cbn [digits2_pos].
  - rewrite Pos2Z.inj_succ.
    replace (Z.succ (Zpos (digits2_pos p)) - 1) with (Zpos (digits2_pos p) - 1 + 1) by lia.
    rewrite Z.pow_succ_r by lia. rewrite Z.pow_add_r by lia.
    change (2 ^ 1) with 2. lia.
  - rewrite Pos2Z.inj_succ.
    replace (Z.succ (Zpos (digits2_pos p)) - 1) with (Zpos (digits2_pos p) - 1 + 1) by lia.
    rewrite Z.pow_succ_r by lia. rewrite Z.pow_add_r by lia.
    change (2 ^ 1) with 2. lia.
  - cbn. lia.
Qed.

(** A number below [2^n] has at most [n] binary digits. *)
Lemma Zdigits2_le (q n : Z) : 0 <= n -> 0 <= q < 2 ^ n -> Zdigits2 q <= n.
Proof.
  intros Hn [Hq Hlt]. destruct q as [| p | p]; cbn; [lia | | lia].
  destruct (digits2_pos_bounds p) as [Hlo _].
  destruct (Z.le_gt_cases (Zpos (digits2_pos p)) n) as [H | H]; [assumption |].
  exfalso. assert (2 ^ n <= 2 ^ (Zpos (digits2_pos p) - 1)).
  { apply Z.pow_le_mono_r; lia. }
  lia.
Qed.

Lemma digits2_pos_mono (p q : positive) :
  Zpos p <= Zpos q -> Zpos (digits2_pos p) <= Zpos (digits2_pos q).
Proof.
  intros H.
  destruct (digits2_pos_bounds p) as [Hlo _].
  destruct (digits2_pos_bounds q) as [_ Hhi].
  destruct (Z.le_gt_cases (Zpos (digits2_pos p)) (Zpos (digits2_pos q)))
    as [Hle | Hgt]; [assumption |].
  exfalso. assert (2 ^ Zpos (digits2_pos q) <= 2 ^ (Zpos (digits2_pos p) - 1)).
  { apply Z.pow_le_mono_r; lia. }
  lia.
Qed.

(** The number of digits is fixed by the binade. *)
Lemma digits2_pos_unique (p : positive) (n : Z) :
  2 ^ (n - 1) <= Zpos p < 2 ^ n -> Zpos (digits2_pos p) = n.
Proof.
  intros [Hlo Hhi]. destruct (digits2_pos_bounds p) as [Hlo' Hhi'].
  assert (Hn : 0 < n).
  { destruct (Z.lt_ge_cases 0 n) as [H | H]; [assumption |].
    destruct (Z.eq_dec n 0) as [-> | Hne]; [cbn in Hhi; lia |].
    rewrite Z.pow_neg_r in Hhi by lia. lia. }
  destruct (Z.lt_trichotomy (Zpos (digits2_pos p)) n) as [H | [H | H]];
    [exfalso | assumption | exfalso].
  - assert (2 ^ Zpos (digits2_pos p) <= 2 ^ (n - 1)) by (apply Z.pow_le_mono_r; lia).
    lia.
  - assert (2 ^ n <= 2 ^ (Zpos (digits2_pos p) - 1)) by (apply Z.pow_le_mono_r; lia).
    lia.
Qed.

(** *** Shifting right *)

Lemma shr_1_m (mrs : shr_record) :
  0 <= shr_m mrs -> shr_m (shr_1 mrs) = shr_m mrs / 2.
Proof.
  destruct mrs as [m r s]. cbn [shr_m]. intros Hm.
  destruct m as [| [p | p |] | p]; cbn [shr_1 shr_m].
  - reflexivity.
  - apply Z.div_unique with (r := 1); lia.
  - apply Z.div_unique with (r := 0); lia.
  - reflexivity.
  - lia.
Qed.

Lemma pow2_xO (p : positive) : 2 ^ Zpos p~0 = 2 ^ Zpos p * 2 ^ Zpos p.
Proof.
  replace (Zpos p~0) with (Zpos p + Zpos p) by lia.
  apply Z.pow_add_r; lia.
Qed.

Lemma pow2_xI (p : positive) : 2 ^ Zpos p~1 = 2 * (2 ^ Zpos p * 2 ^ Zpos p).
Proof.
  replace (Zpos p~1) with (Z.succ (Zpos p + Zpos p)) by lia.
  rewrite Z.pow_succ_r by lia. f_equal. apply Z.pow_add_r; lia.
Qed.

Lemma iter_shr_1_m (p : positive) :
  forall mrs, 0 <= shr_m mrs ->
    shr_m (SpecFloat.iter_pos shr_1 p mrs) = shr_m mrs / 2 ^ Zpos p.
Proof.
  induction p as [p IH | p IH |]; intros mrs Hm; cbn [SpecFloat.iter_pos].
  - assert (H1 : 0 <= shr_m (shr_1 mrs)).
    { rewrite shr_1_m by assumption. apply Z.div_pos; lia. }
    assert (H2 : 0 <= shr_m (SpecFloat.iter_pos shr_1 p (shr_1 mrs))).
    { rewrite IH by assumption. apply Z.div_pos; [assumption | lia]. }
    rewrite IH, IH, shr_1_m by assumption.
    rewrite !Z.div_div by lia. now rewrite pow2_xI, Z.mul_assoc.
  - assert (H2 : 0 <= shr_m (SpecFloat.iter_pos shr_1 p mrs)).
    { rewrite IH by assumption. apply Z.div_pos; [assumption | lia]. }
    rewrite IH, IH by assumption.
    rewrite !Z.div_div by lia. now rewrite pow2_xO.
  - now rewrite shr_1_m.
Qed.

Lemma shr_record_of_loc_m (m : Z) (l : location) :
  shr_m (shr_record_of_loc m l) = m.
Proof. destruct l as [| []]; reflexivity. Qed.

Lemma round_nearest_even_bounds (m : Z) (l : location) :
  m <= round_nearest_even m l <= m + 1.
Proof.
  destruct l as [| []]; cbn; try lia.
  destruct (Z.even m); lia.
Qed.

Lemma new_location_exact (n : Z) : new_location n 0 = loc_Exact.
Proof. unfold new_location. now destruct (Z.even n). Qed.

(** *** The order on magnitudes

    On [+0] and the positive finite numbers [SFcompare] is the
    lexicographic order on exponent and mantissa. *)

Lemma SFabs_magnitude (x : spec_float) : sf_finite x = true -> magnitude (SFabs x).
Proof. destruct x; cbn; intros H; try discriminate; constructor. Qed.

Lemma SFleb_finite (m1 : positive) (e1 : Z) (m2 : positive) (e2 : Z) :
  SFleb (S754_finite false m1 e1) (S754_finite false m2 e2) = true
  <-> e1 < e2 \/ (e1 = e2 /\ Zpos m1 <= Zpos m2).
Proof.
  unfold SFleb, SFcompare. rewrite Pos.compare_cont_spec. cbn [Pos.switch_Eq].
  destruct (Z.compare_spec e1 e2) as [H | H | H];
    destruct (Pos.compare_spec m1 m2) as [H' | H' | H'];
    split; intros H0; try discriminate; try reflexivity; lia.
Qed.

Lemma SFltb_finite (m1 : positive) (e1 : Z) (m2 : positive) (e2 : Z) :
  SFltb (S754_finite false m1 e1) (S754_finite false m2 e2) = true
  <-> e1 < e2 \/ (e1 = e2 /\ Zpos m1 < Zpos m2).
Proof.
  unfold SFltb, SFcompare. rewrite Pos.compare_cont_spec. cbn [Pos.switch_Eq].
  destruct (Z.compare_spec e1 e2) as [H | H | H];
    destruct (Pos.compare_spec m1 m2) as [H' | H' | H'];
    split; intros H0; try discriminate; try reflexivity; lia.
Qed.

Lemma SFleb_refl (x : spec_float) : magnitude x -> SFleb x x = true.
Proof. intros [| m e]; [reflexivity |]. apply SFleb_finite. lia. Qed.

Lemma SFleb_trans (x y z : spec_float) :
  magnitude x -> magnitude y -> magnitude z ->
  SFleb x y = true -> SFleb y z = true -> SFleb x z = true.
Proof.
  intros [| mx ex] [| my ey] [| mz ez] Hxy Hyz; try reflexivity; try discriminate.
  apply SFleb_finite in Hxy. apply SFleb_finite in Hyz. apply SFleb_finite. lia.
Qed.

Lemma SFltb_SFleb (x y : spec_float) :
  magnitude x -> magnitude y -> SFltb x y = true -> SFleb x y = true.
Proof.
  intros [| mx ex] [| my ey] H; try reflexivity; try discriminate.
  apply SFltb_finite in H. apply SFleb_finite. lia.
Qed.

Lemma SFltb_false_SFleb (x y : spec_float) :
  magnitude x -> magnitude y -> SFltb x y = false -> SFleb y x = true.
Proof.
  intros [| mx ex] [| my ey] H; try reflexivity; try discriminate.
  apply SFleb_finite.
  destruct (SFltb (S754_finite false mx ex) (S754_finite false my ey)) eqn:Hlt;
    [discriminate |].
  assert (Hn : ~ (ex < ey \/ (ex = ey /\ Zpos mx < Zpos my))).
  { intros Hc. apply SFltb_finite in Hc. congruence. }
  lia.
Qed.

Lemma SFleb_antisym (x y : spec_float) :
  magnitude x -> magnitude y -> SFleb x y = true -> SFleb y x = true -> x = y.
Proof.
  intros [| mx ex] [| my ey] Hxy Hyx; try reflexivity; try discriminate.
  apply SFleb_finite in Hxy. apply SFleb_finite in Hyx.
  assert (ex = ey) by lia. assert (mx = my) by lia. now subst.
Qed.

(** *** Rounding and division in a format *)

Section Format.
Variables prec emax : Z.
Hypothesis Hfmt : format prec emax.

Local Abbreviation fexp := (SpecFloat.fexp prec emax).
Local Abbreviation emin := (3 - emax - prec).

Lemma fexp_eq (z : Z) : fexp z = Z.max (z - prec) emin.
Proof. reflexivity. Qed.

Lemma one_mantissa : Zpos (Z.to_pos (2 ^ (prec - 1))) = 2 ^ (prec - 1).
Proof. destruct Hfmt. apply Z2Pos.id, pow2_pos. lia. Qed.

Lemma one_digits : Zpos (digits2_pos (Z.to_pos (2 ^ (prec - 1)))) = prec.
Proof.
  destruct Hfmt. apply digits2_pos_unique. rewrite one_mantissa. split; [lia |].
  apply Z.pow_lt_mono_r; lia.
Qed.

Lemma bounded_inv (m : positive) (e : Z) :
  bounded prec emax m e = true ->
  e = Z.max (Zpos (digits2_pos m) + e - prec) emin /\ e <= emax - prec.
Proof.
  unfold bounded, canonical_mantissa. intros H.
  apply andb_prop in H. destruct H as [H1 H2].
  apply Z.eqb_eq in H1. apply Z.leb_le in H2.
  rewrite fexp_eq in H1. lia.
Qed.

Lemma bounded_intro (m : positive) (e : Z) :
  e = Z.max (Zpos (digits2_pos m) + e - prec) emin -> e <= emax - prec ->
  bounded prec emax m e = true.
Proof.
  intros H1 H2. unfold bounded, canonical_mantissa.
  apply andb_true_intro. split; [apply Z.eqb_eq; rewrite fexp_eq; lia | apply Z.leb_le; lia].
Qed.

Lemma one_bounded : bounded prec emax (Z.to_pos (2 ^ (prec - 1))) (1 - prec) = true.
Proof. destruct Hfmt. apply bounded_intro; rewrite ?one_digits; lia. Qed.

(** The mantissa and exponent that [shr_fexp] leaves. *)
Lemma shr_fexp_spec (m e : Z) (l : location) :
  0 <= m ->
  let e' := Z.max e (fexp (Zdigits2 m + e)) in
  shr_m (fst (shr_fexp prec emax m e l)) = m / 2 ^ (e' - e)
  /\ snd (shr_fexp prec emax m e l) = e'.
Proof.
  intros Hm e'. unfold shr_fexp, shr.
  destruct (fexp (Zdigits2 m + e) - e) as [| k | k] eqn:Hk; cbn [fst snd].
  - replace e' with e by (subst e'; lia).
    rewrite Z.sub_diag, Z.div_1_r, shr_record_of_loc_m. split; reflexivity.
  - replace (e' - e) with (Zpos k) by (subst e'; lia).
    rewrite iter_shr_1_m by (rewrite shr_record_of_loc_m; assumption).
    rewrite shr_record_of_loc_m. split; [reflexivity | subst e'; lia].
  - replace e' with e by (subst e'; lia).
    rewrite Z.sub_diag, Z.div_1_r, shr_record_of_loc_m. split; reflexivity.
Qed.

Lemma SFleb_finite_one (p : positive) (e : Z) :
  e <= 1 - prec -> (e = 1 - prec -> Zpos p <= 2 ^ (prec - 1)) ->
  SFleb (S754_finite false p e) (one prec) = true.
Proof.
  intros He Hp. apply SFleb_finite. rewrite one_mantissa. lia.
Qed.

(** What is at most one in absolute value is finite. *)
Lemma SFleb_one_magnitude (x : spec_float) :
  SFleb (SFabs x) (one prec) = true -> magnitude (SFabs x).
Proof. destruct x; cbn [SFabs]; intros H; try discriminate; constructor. Qed.

(** Rounding a quotient that is below one. *)
Lemma binary_round_aux_le_one (s : bool) (q e : Z) (l : location) :
  0 <= q -> e <= - prec -> q < 2 ^ (- e) ->
  SFleb (SFabs (binary_round_aux prec emax s q e l)) (one prec) = true.
Proof.
  intros Hq He Hlt. destruct Hfmt as [Hprec Hemax]. unfold binary_round_aux.
  pose proof (shr_fexp_spec q e l Hq) as H1. cbv zeta in H1.
  destruct (shr_fexp prec emax q e l) as [mrs1 e1]. cbn [fst snd] in H1.
  destruct H1 as [Hm1 He1].
  assert (Hdq : Zdigits2 q <= - e) by (apply Zdigits2_le; lia).
  rewrite fexp_eq in He1, Hm1.
  assert (He1' : e <= e1 <= - prec) by lia.
  assert (Hm1' : 0 <= shr_m mrs1 < 2 ^ (- e1)).
  { rewrite Hm1. replace (Z.max e (Z.max (Zdigits2 q + e - prec) emin)) with e1 by lia.
    pose proof (pow2_pos (e1 - e)).
    split; [apply Z.div_pos; lia |].
    apply Z.div_lt_upper_bound; [lia |].
    rewrite <- Z.pow_add_r by lia. now replace (e1 - e + - e1) with (- e) by lia. }
  clear Hm1 He1.
  pose proof (round_nearest_even_bounds (shr_m mrs1) (loc_of_shr_record mrs1)) as Hr.
  set (m2 := round_nearest_even (shr_m mrs1) (loc_of_shr_record mrs1)) in *.
  assert (Hm2 : 0 <= m2 <= 2 ^ (- e1)) by lia.
  pose proof (shr_fexp_spec m2 e1 loc_Exact (proj1 Hm2)) as H3. cbv zeta in H3.
  destruct (shr_fexp prec emax m2 e1 loc_Exact) as [mrs3 e3]. cbn [fst snd] in H3.
  destruct H3 as [Hm3 He3].
  assert (Hd2 : Zdigits2 m2 <= - e1 + 1).
  { apply Zdigits2_le; [lia |]. split; [lia |].
    pose proof (pow2_pos (- e1)).
    rewrite Z.pow_add_r by lia. change (2 ^ 1) with 2. lia. }
  rewrite fexp_eq in He3, Hm3.
  assert (He3' : e1 <= e3 <= 1 - prec) by lia.
  assert (Hm3' : 0 <= shr_m mrs3 <= 2 ^ (- e3)).
  { rewrite Hm3. replace (Z.max e1 (Z.max (Zdigits2 m2 + e1 - prec) emin)) with e3 by lia.
    pose proof (pow2_pos (e3 - e1)).
    split; [apply Z.div_pos; lia |].
    apply Z.div_le_upper_bound; [lia |].
    rewrite <- Z.pow_add_r by lia. now replace (e3 - e1 + - e3) with (- e1) by lia. }
  destruct (shr_m mrs3) as [| p | p]; [reflexivity | | lia].
  destruct (Z.leb_spec e3 (emax - prec)) as [_ | Hbig]; [| lia].
  cbn [SFabs]. apply SFleb_finite_one; [lia |].
  intros ->. replace (prec - 1) with (- (1 - prec)) by lia. exact (proj2 Hm3').
Qed.

(** The quotient and the exponent that [SFdiv_core_binary] hands to the
    rounding. *)
Lemma div_core_spec (mx : positive) (ex : Z) (my : positive) (ey : Z) :
  let e' :=
    Z.min (fexp (Zpos (digits2_pos mx) + ex - (Zpos (digits2_pos my) + ey))) (ex - ey) in
  SFdiv_core_binary prec emax (Zpos mx) ex (Zpos my) ey
  = (Zpos mx * 2 ^ (ex - ey - e') / Zpos my, e',
     new_location (Zpos my) ((Zpos mx * 2 ^ (ex - ey - e')) mod Zpos my)).
Proof.
  intros e'. unfold SFdiv_core_binary. cbn [Zdigits2].
  change (Z.min (fexp (Zpos (digits2_pos mx) + ex - (Zpos (digits2_pos my) + ey)))
            (ex - ey)) with e'.
  assert (Hs : 0 <= ex - ey - e') by (subst e'; lia).
  assert (Hm : match ex - ey - e' with
               | 0 => Zpos mx
               | Zpos _ => Z.shiftl (Zpos mx) (ex - ey - e')
               | Zneg _ => 0
               end = Zpos mx * 2 ^ (ex - ey - e')).
  { destruct (ex - ey - e') as [| k | k] eqn:Hk.
    - now rewrite Z.mul_1_r.
    - now rewrite Z.shiftl_mul_pow2.
    - lia. }
  rewrite Hm. unfold Z.div, Z.modulo.
  now destruct (Z.div_eucl (Zpos mx * 2 ^ (ex - ey - e')) (Zpos my)) as [q r].
Qed.

(** A quotient of a finite number by a larger one is at most one in
    absolute value. *)
Lemma SFdiv_lt_le_one (sx sy : bool) (mx : positive) (ex : Z) (my : positive) (ey : Z) :
  bounded prec emax mx ex = true ->
  bounded prec emax my ey = true ->
  ex < ey \/ (ex = ey /\ Zpos mx < Zpos my) ->
  SFleb (SFabs (SFdiv prec emax (S754_finite sx mx ex) (S754_finite sy my ey)))
    (one prec) = true.
Proof.
  intros Hx Hy Hlt. destruct Hfmt as [Hprec Hemax].
  apply bounded_inv in Hx. apply bounded_inv in Hy.
  destruct Hx as [Hx _]. destruct Hy as [Hy _].
  cbn [SFdiv]. rewrite div_core_spec. rewrite fexp_eq.
  set (dx := Zpos (digits2_pos mx)) in *.
  set (dy := Zpos (digits2_pos my)) in *.
  destruct (digits2_pos_bounds mx) as [_ Hmx]. fold dx in Hmx.
  destruct (digits2_pos_bounds my) as [Hmy _]. fold dy in Hmy.
  assert (Hdxy : dx + ex <= dy + ey).
  { destruct Hlt as [Hlt | [-> Hlt]]; [lia |].
    pose proof (digits2_pos_mono mx my ltac:(lia)). subst dx dy. lia. }
  set (e' := Z.min (Z.max (dx + ex - (dy + ey) - prec) emin) (ex - ey)).
  assert (He' : e' <= - prec) by (subst e'; lia).
  assert (Hs : 0 <= ex - ey - e') by (subst e'; lia).
  pose proof (pow2_pos (ex - ey - e') Hs) as Hps.
  pose proof (pow2_pos (- e') ltac:(lia)) as Hpe.
  assert (Hnum : Zpos mx * 2 ^ (ex - ey - e') < Zpos my * 2 ^ (- e')).
  { destruct Hlt as [Hlt | [Heq Hlt]].
    - (* the divisor is normal and sits in a higher binade *)
      assert (Hdy : dy = prec) by lia.
      assert (Hdx : dx <= prec) by lia.
      apply Z.lt_le_trans with (2 ^ prec * 2 ^ (ex - ey - e')).
      + apply Z.mul_lt_mono_pos_r; [assumption |].
        apply Z.lt_le_trans with (2 ^ dx); [assumption |].
        apply Z.pow_le_mono_r; lia.
      + apply Z.le_trans with (2 ^ (prec - 1) * 2 ^ (- e')).
        * rewrite <- !Z.pow_add_r by lia. apply Z.pow_le_mono_r; lia.
        * apply Z.mul_le_mono_nonneg_r; [lia |].
          rewrite Hdy in Hmy. exact Hmy.
    - replace (ex - ey - e') with (- e') by lia.
      apply Z.mul_lt_mono_pos_r; assumption. }
  apply binary_round_aux_le_one.
  - apply Z.div_pos; lia.
  - exact He'.
  - apply Z.div_lt_upper_bound; lia.
Qed.

Lemma binary_round_aux_canonical (s : bool) (m : positive) (e : Z) :
  bounded prec emax m e = true ->
  binary_round_aux prec emax s (Zpos m) e loc_Exact = S754_finite s m e.
Proof.
  intros Hb. pose proof (bounded_inv m e Hb) as [Hc He].
  unfold binary_round_aux, shr_fexp. cbn [Zdigits2 shr_record_of_loc].
  replace (fexp (Zpos (digits2_pos m) + e) - e) with 0 by (rewrite fexp_eq; lia).
  cbn [shr shr_m loc_of_shr_record round_nearest_even Zdigits2 shr_record_of_loc].
  replace (fexp (Zpos (digits2_pos m) + e) - e) with 0 by (rewrite fexp_eq; lia).
  cbn [shr shr_m].
  destruct (Z.leb_spec e (emax - prec)) as [_ | Hbig]; [reflexivity | lia].
Qed.

Lemma binary_round_aux_doubled (s : bool) (m : positive) (e : Z) :
  bounded prec emax m e = true -> emin < e ->
  binary_round_aux prec emax s (Zpos m~0) (e - 1) loc_Exact = S754_finite s m e.
Proof.
  intros Hb Hn. pose proof (bounded_inv m e Hb) as [Hc He].
  unfold binary_round_aux, shr_fexp. cbn [Zdigits2 shr_record_of_loc digits2_pos].
  rewrite Pos2Z.inj_succ.
  replace (fexp (Z.succ (Zpos (digits2_pos m)) + (e - 1)) - (e - 1)) with 1
    by (rewrite fexp_eq; lia).
  cbn [shr SpecFloat.iter_pos shr_1 orb shr_m loc_of_shr_record round_nearest_even
         Zdigits2 shr_record_of_loc].
  replace (e - 1 + 1) with e by lia.
  replace (fexp (Zpos (digits2_pos m) + e) - e) with 0 by (rewrite fexp_eq; lia).
  cbn [shr shr_m].
  destruct (Z.leb_spec e (emax - prec)) as [_ | Hbig]; [reflexivity | lia].
Qed.

(** A finite number divided by itself, whatever the signs. *)
Lemma SFdiv_self (sx sy : bool) (m : positive) (e : Z) :
  SFdiv prec emax (S754_finite sx m e) (S754_finite sy m e)
  = S754_finite (xorb sx sy) (Z.to_pos (2 ^ (prec - 1))) (1 - prec).
Proof.
  destruct Hfmt as [Hprec Hemax].
  cbn [SFdiv]. rewrite div_core_spec.
  replace (Zpos (digits2_pos m) + e - (Zpos (digits2_pos m) + e)) with 0 by lia.
  replace (e - e) with 0 by lia. rewrite fexp_eq.
  replace (Z.min (Z.max (0 - prec) emin) 0) with (1 - prec - 1) by lia.
  replace (0 - (1 - prec - 1)) with prec by lia.
  rewrite (Z.mul_comm (Zpos m)), Z.div_mul, Z.mod_mul by lia.
  rewrite new_location_exact.
  replace (2 ^ prec) with (Zpos (Z.to_pos (2 ^ (prec - 1)))~0).
  - apply binary_round_aux_doubled; [apply one_bounded | lia].
  - rewrite Pos2Z.inj_xO, one_mantissa.
    replace prec with (Z.succ (prec - 1)) at 2 by lia.
    now rewrite Z.pow_succ_r by lia.
Qed.

(** Division by one gives the dividend back. *)
Lemma SFdiv_one (x : spec_float) :
  SpecFloat.valid_binary prec emax x = true -> SFdiv prec emax x (one prec) = x.
Proof.
  destruct Hfmt as [Hprec Hemax].
  destruct x as [s | s | | s m e]; cbn [SpecFloat.valid_binary]; intros Hb.
  1-3: try (destruct s); reflexivity.
  pose proof (bounded_inv m e Hb) as [Hc He].
  unfold one. cbn [SFdiv]. rewrite div_core_spec, one_digits, fexp_eq.
  rewrite xorb_false_r.
  pose proof (pow2_pos (prec - 1) ltac:(lia)) as Hpp.
  destruct (Z.eq_dec e emin) as [Heq | Hne].
  - replace (Z.min (Z.max (Zpos (digits2_pos m) + e - (prec + (1 - prec)) - prec) emin)
               (e - (1 - prec))) with e by lia.
    replace (e - (1 - prec) - e) with (prec - 1) by lia.
    rewrite one_mantissa, Z.div_mul, Z.mod_mul by lia.
    rewrite new_location_exact. now apply binary_round_aux_canonical.
  - replace (Z.min (Z.max (Zpos (digits2_pos m) + e - (prec + (1 - prec)) - prec) emin)
               (e - (1 - prec))) with (e - 1) by lia.
    replace (e - (1 - prec) - (e - 1)) with (Z.succ (prec - 1)) by lia.
    rewrite Z.pow_succ_r by lia.
    rewrite one_mantissa, Z.mul_assoc, Z.div_mul, Z.mod_mul by lia.
    rewrite new_location_exact.
    replace (Zpos m * 2) with (Zpos m~0) by lia.
    apply binary_round_aux_doubled; [assumption | lia].
Qed.

(** The quotient by a magnitude that bounds the dividend. *)
Lemma SFdiv_bounded (x y : spec_float) :
  SpecFloat.valid_binary prec emax x = true ->
  SpecFloat.valid_binary prec emax y = true ->
  sf_finite x = true -> magnitude y -> y <> S754_zero false ->
  SFleb (SFabs x) y = true ->
  SFleb (SFabs (SFdiv prec emax x y)) (one prec) = true
  /\ (SFabs x = y -> SFabs (SFdiv prec emax x y) = one prec).
Proof.
  intros Hvx Hvy Hfx Hmag Hnz Hle.
  destruct Hmag as [| my ey]; [congruence |].
  destruct x as [sx | sx | | sx mx ex]; try discriminate.
  - split; [reflexivity | discriminate].
  - cbn [SFabs] in Hle. apply SFleb_finite in Hle.
    cbn [SpecFloat.valid_binary] in Hvx, Hvy.
    destruct (Z.eq_dec ex ey) as [-> | Hne].
    + destruct (Pos.eq_dec mx my) as [-> | Hnm].
      * rewrite SFdiv_self, xorb_false_r. cbn [SFabs].
        split; [apply SFleb_refl; constructor | reflexivity].
      * split; [apply SFdiv_lt_le_one; try assumption; lia |].
        cbn [SFabs]. intros H. congruence.
    + split; [apply SFdiv_lt_le_one; try assumption; lia |].
      cbn [SFabs]. intros H. congruence.
Qed.

(** *** Integers that fit in the precision *)

Lemma iter_xO (p k : positive) : Zpos (Pos.iter xO p k) = Zpos p * 2 ^ Zpos k.
Proof.
  induction k as [| k IH] using Pos.peano_ind.
  - cbn [Pos.iter]. change (2 ^ 1) with 2. lia.
  - rewrite Pos.iter_succ, Pos2Z.inj_xO, IH, Pos2Z.inj_succ, Z.pow_succ_r by lia. ring.
Qed.

Lemma binary_round_int (s : bool) (p : positive) :
  Zpos p < 2 ^ prec ->
  exists m,
    binary_round prec emax s p 0 = S754_finite s m (Zpos (digits2_pos p) - prec)
    /\ Zpos m = Zpos p * 2 ^ (prec - Zpos (digits2_pos p))
    /\ bounded prec emax m (Zpos (digits2_pos p) - prec) = true.
Proof.
  intros Hp. destruct Hfmt as [Hprec Hemax].
  set (d := Zpos (digits2_pos p)).
  assert (Hd : 1 <= d <= prec).
  { split; [subst d; lia |]. apply (Zdigits2_le (Zpos p)); lia. }
  destruct (digits2_pos_bounds p) as [Hlo Hhi]. fold d in Hlo, Hhi.
  unfold binary_round, shl_align. fold d. rewrite Z.add_0_r, fexp_eq.
  replace (Z.max (d - prec) emin - 0) with (d - prec) by lia.
  replace (Z.max (d - prec) emin) with (d - prec) by lia.
  destruct (d - prec) as [| k | k] eqn:Hk; [| lia |].
  - exists p. replace (prec - d) with 0 by lia. rewrite Z.mul_1_r.
    assert (Hb : bounded prec emax p 0 = true).
    { apply bounded_intro; fold d; lia. }
    repeat split; [now apply binary_round_aux_canonical | exact Hb].
  - exists (Pos.iter xO p k).
    assert (Hm : Zpos (Pos.iter xO p k) = Zpos p * 2 ^ (prec - d)).
    { rewrite iter_xO. f_equal. f_equal. lia. }
    assert (Hdm : Zpos (digits2_pos (Pos.iter xO p k)) = prec).
    { apply digits2_pos_unique. rewrite Hm.
      pose proof (pow2_pos (prec - d) ltac:(lia)) as Hpp.
      replace (prec - 1) with (d - 1 + (prec - d)) by lia.
      replace prec with (d + (prec - d)) at 4 by lia.
      rewrite !Z.pow_add_r by lia. split.
      - apply Z.mul_le_mono_nonneg_r; lia.
      - apply Z.mul_lt_mono_pos_r; lia. }
    assert (Hb : bounded prec emax (Pos.iter xO p k) (Zneg k) = true).
    { apply bounded_intro; rewrite ?Hdm; lia. }
    repeat split; [now apply binary_round_aux_canonical | exact Hm | exact Hb].
Qed.
End Format.

Lemma format64 : format FloatOps.prec FloatOps.emax.
Proof. split; reflexivity || discriminate. Qed.

Lemma format32 : format 24 128.
Proof. split; reflexivity || discriminate. Qed.
End BinaryFacts.

(** *** The same facts on the primitive floats *)

Module F64Facts.
Import Binary BinaryFacts.
Import F64.
Local Open Scope float_scope.

Local Abbreviation SFone := (one prec).

Lemma SFeqb_refl (x : spec_float) : sf_finite x = true -> SFeqb x x = true.
Proof.
  destruct x as [s | s | | s m e]; cbn [sf_finite]; intros H; try discriminate.
  - reflexivity.
  - unfold SFeqb, SFcompare. rewrite Z.compare_refl, Pos.compare_cont_refl.
    now destruct s.
Qed.

Lemma is_finite_spec (x : float) : is_finite x = sf_finite (Prim2SF x).
Proof.
  unfold is_finite, is_nan, is_infinity. rewrite !FloatAxioms.eqb_spec, abs_spec.
  change (Prim2SF infinity) with (S754_infinity false).
  destruct (Prim2SF x) as [s | s | | s m e] eqn:Hx; cbn [SFabs sf_finite].
  - reflexivity.
  - now destruct s.
  - reflexivity.
  - rewrite (SFeqb_refl (S754_finite s m e)) by reflexivity. reflexivity.
Qed.

Lemma is_zero_spec (x : float) :
  is_zero x = match Prim2SF x with S754_zero _ => true | _ => false end.
Proof.
  unfold is_zero. rewrite FloatAxioms.eqb_spec. change (Prim2SF zero) with (S754_zero false).
  destruct (Prim2SF x) as [s | s | | s m e]; try reflexivity; now destruct s.
Qed.

Lemma abs_mag (x : float) : is_finite x = true -> mag (abs x).
Proof.
  rewrite is_finite_spec. intros H. unfold mag. rewrite abs_spec.
  now apply SFabs_magnitude.
Qed.

Lemma mag_is_nan (a : float) : mag a -> is_nan a = false.
Proof.
  unfold mag, is_nan. rewrite FloatAxioms.eqb_spec. intros H.
  rewrite SFeqb_refl; [reflexivity |]. now destruct H.
Qed.

Lemma leb_refl (a : float) : mag a -> (a <=? a) = true.
Proof. rewrite leb_spec. apply SFleb_refl. Qed.

Lemma leb_trans (a b c : float) :
  mag a -> mag b -> mag c -> (a <=? b) = true -> (b <=? c) = true -> (a <=? c) = true.
Proof. rewrite !leb_spec. apply SFleb_trans. Qed.

Lemma ltb_leb (a b : float) : mag a -> mag b -> (a <? b) = true -> (a <=? b) = true.
Proof. rewrite leb_spec, ltb_spec. apply SFltb_SFleb. Qed.

Lemma ltb_false_leb (a b : float) :
  mag a -> mag b -> (a <? b) = false -> (b <=? a) = true.
Proof. rewrite leb_spec, ltb_spec. apply SFltb_false_SFleb. Qed.

Lemma leb_antisym (a b : float) :
  mag a -> mag b -> (a <=? b) = true -> (b <=? a) = true -> a = b.
Proof.
  rewrite !leb_spec. intros Ha Hb Hab Hba. apply Prim2SF_inj.
  now apply SFleb_antisym.
Qed.

(** *** The maximum of magnitudes *)

Lemma maximum_mag (a b : float) :
  mag a -> mag b ->
  mag (F64.maximum a b)
  /\ (a <=? F64.maximum a b) = true
  /\ (b <=? F64.maximum a b) = true
  /\ (F64.maximum a b = a \/ F64.maximum a b = b).
Proof.
  intros Ha Hb. unfold F64.maximum.
  rewrite (mag_is_nan a Ha), (mag_is_nan b Hb).
  destruct (a <? b) eqn:Hlt.
  - repeat split; auto using ltb_leb, leb_refl.
  - repeat split; auto using ltb_false_leb, leb_refl.
Qed.

Lemma fold_maximum_mag (xs : list float) :
  forall acc, mag acc -> Forall mag xs ->
    let r := fold_left F64.maximum xs acc in
    mag r
    /\ (acc <=? r) = true
    /\ Forall (fun x => (x <=? r) = true) xs
    /\ In r (acc :: xs).
Proof.
  induction xs as [| x xs IH]; intros acc Hacc Hxs; cbn [fold_left].
  - repeat split; auto using leb_refl. now left.
  - inversion Hxs as [| ? ? Hx Hxs']; subst.
    destruct (maximum_mag acc x Hacc Hx) as (Hm & Hle1 & Hle2 & Hin).
    destruct (IH (F64.maximum acc x) Hm Hxs') as (Hr & Hle & Hall & Hin').
    cbv zeta. repeat split.
    + exact Hr.
    + now apply leb_trans with (F64.maximum acc x).
    + constructor; [now apply leb_trans with (F64.maximum acc x) | exact Hall].
    + destruct Hin' as [Heq | Hin']; [| right; now right].
      rewrite <- Heq. destruct Hin as [-> | ->]; [now left | right; now left].
Qed.

(** [np.max(np.abs(l))] of a non-empty finite array. *)
Lemma peak_spec (l : list float) :
  l <> [] -> Forall (fun x => is_finite x = true) l ->
  exists m,
    F64.np_max (F64.np_abs l) = Ok m
    /\ mag m
    /\ Forall (fun x => (abs x <=? m) = true) l
    /\ Exists (fun x => abs x = m) l.
Proof.
  intros Hne Hfin. destruct l as [| x l]; [congruence |].
  inversion Hfin as [| ? ? Hx Hl]; subst.
  assert (Hmags : Forall mag (map abs l)).
  { clear -Hl. induction Hl; constructor; auto using abs_mag. }
  destruct (fold_maximum_mag (map abs l) (abs x) (abs_mag x Hx) Hmags)
    as (Hr & Hle & Hall & Hin).
  cbv zeta in *. exists (fold_left F64.maximum (map abs l) (abs x)).
  repeat split.
  - exact Hr.
  - constructor; [exact Hle |]. now rewrite List.Forall_map in Hall.
  - destruct Hin as [Heq | Hin]; [now left |].
    right. apply List.Exists_exists. apply in_map_iff in Hin.
    destruct Hin as (y & Hy & Hin). exists y. split; assumption.
Qed.

(** *** Division by the peak *)

Lemma div_one (x : float) : x / 1 = x.
Proof.
  apply Prim2SF_inj. rewrite div_spec. change (Prim2SF 1) with SFone.
  apply (SFdiv_one prec emax format64), Prim2SF_valid.
Qed.

Lemma div_by_peak (x m : float) :
  is_finite x = true -> mag m -> is_zero m = false -> (abs x <=? m) = true ->
  is_finite (x / m) = true
  /\ (abs (x / m) <=? 1) = true
  /\ (abs x = m -> abs (x / m) = 1).
Proof.
  rewrite is_finite_spec, is_zero_spec, leb_spec, abs_spec. unfold mag.
  intros Hx Hm Hnz Hle.
  destruct (SFdiv_bounded prec emax format64 (Prim2SF x) (Prim2SF m)) as [Hone Heq];
    auto using Prim2SF_valid.
  { intros H. now rewrite H in Hnz. }
  rewrite is_finite_spec, leb_spec, abs_spec, div_spec.
  change (Prim2SF 1) with SFone. unfold SF64div. repeat split.
  - apply (SFleb_one_magnitude prec) in Hone.
    destruct (SFdiv prec emax (Prim2SF x) (Prim2SF m)); cbn in *;
      try reflexivity; inversion Hone.
  - exact Hone.
  - intros H. apply Prim2SF_inj. rewrite abs_spec, div_spec.
    change (Prim2SF 1) with SFone. apply Heq. now rewrite <- abs_spec, H.
Qed.

Lemma mag_one : mag 1.
Proof. unfold mag. change (Prim2SF 1) with SFone. constructor. Qed.

(** A finite sample that is not zero has a magnitude above zero. *)
Lemma peak_nonzero (x m : float) :
  is_finite x = true -> is_zero x = false -> mag m -> (abs x <=? m) = true ->
  is_zero m = false.
Proof.
  rewrite is_finite_spec, !is_zero_spec, leb_spec, abs_spec. unfold mag.
  intros Hx Hnz Hm Hle.
  destruct (Prim2SF x) as [s | s | | s mx ex]; try discriminate.
  destruct Hm as [| my ey]; [discriminate | reflexivity].
Qed.

(** Peak normalization of a finite array that is not silent: the peak of
    the result is exactly one, and every sample stays finite. *)
Lemma normalize_peak_one (l : list float) :
  Forall (fun x => is_finite x = true) l ->
  Exists (fun x => is_zero x = false) l ->
  exists m,
    F64.np_max (F64.np_abs l) = Ok m
    /\ is_zero m = false
    /\ Forall (fun x => is_finite x = true) (map (fun v => v / m) l)
    /\ F64.np_max (F64.np_abs (map (fun v => v / m) l)) = Ok 1.
Proof.
  intros Hfin Hex.
  assert (Hne : l <> []) by (intros ->; inversion Hex).
  destruct (peak_spec l Hne Hfin) as (m & Hpeak & Hm & Hall & Hhit).
  assert (Hnz : is_zero m = false).
  { apply List.Exists_exists in Hex. destruct Hex as (x & Hin & Hx).
    rewrite List.Forall_forall in Hfin, Hall.
    apply (peak_nonzero x m); auto. }
  assert (Hdiv : Forall (fun x => is_finite (x / m) = true
                                  /\ (abs (x / m) <=? 1) = true
                                  /\ (abs x = m -> abs (x / m) = 1)) l).
  { rewrite List.Forall_forall in *. intros x Hin.
    apply div_by_peak; auto. }
  assert (Hfin' : Forall (fun x => is_finite x = true) (map (fun v => v / m) l)).
  { rewrite List.Forall_map. eapply List.Forall_impl; [| exact Hdiv]. now intros x (H & _). }
  exists m. repeat split; try assumption.
  assert (Hne' : map (fun v => v / m) l <> []) by (destruct l; [congruence | discriminate]).
  destruct (peak_spec _ Hne' Hfin') as (m' & Hpeak' & Hm' & Hall' & Hhit').
  rewrite Hpeak'. f_equal.
  apply leb_antisym; [assumption | apply mag_one | |].
  - apply List.Exists_exists in Hhit'. destruct Hhit' as (y & Hin & <-).
    apply in_map_iff in Hin. destruct Hin as (x & <- & Hin).
    rewrite List.Forall_forall in Hdiv. now apply Hdiv.
  - apply List.Exists_exists in Hhit. destruct Hhit as (x & Hin & Hx).
    rewrite List.Forall_forall in Hdiv, Hall'.
    destruct (Hdiv x Hin) as (_ & _ & Hone).
    rewrite <- (Hone Hx). apply Hall'. apply in_map_iff. now exists x.
Qed.

End F64Facts.

(** ** Voice synthesizer: the range of the rescaled samples *)

Lemma f32_one : F32.one = Binary.one F32.prec.
Proof. reflexivity. Qed.

(** Between -1 and 1, and above the rescaled -32768, is where a float32 of
    absolute value at most one lies. *)
Lemma f32_abs_le_one_between (x : spec_float) :
  SFleb (SFabs x) F32.one = true ->
  f32_between (F32.of_int (-1)) F32.one x = true
  /\ f32_between (rescale_pcm (-32768)) F32.one x = true.
Proof.
  change (F32.of_int (-1)) with (S754_finite true 8388608 (-23)).
  change (rescale_pcm (-32768)) with (S754_finite true 8388864 (-23)).
  change F32.one with (S754_finite false 8388608 (-23)).
  unfold f32_between, F32.leb.
  destruct x as [s | s | | s m e]; cbn [SFabs]; intros H; try discriminate.
  - destruct s; split; reflexivity.
  - destruct s.
    + apply BinaryFacts.SFleb_finite in H.
      assert (Hlow : forall m0 : positive,
                 Zpos 8388608 <= Zpos m0 ->
                 SFleb (S754_finite true m0 (-23)) (S754_finite true m e) = true).
      { intros m0 Hm0. unfold SFleb, SFcompare.
        destruct (Z.compare_spec (-23) e) as [He | He | He]; [| lia | reflexivity].
        rewrite Pos.compare_cont_spec. cbn [Pos.switch_Eq].
        destruct (Pos.compare_spec m0 m) as [Hc | Hc | Hc]; try reflexivity. lia. }
      split; (rewrite Hlow by lia; reflexivity).
    + split; (rewrite H; reflexivity).
Qed.

(** The division by 32767 of an integer of absolute value at most 32767. *)
Lemma rescale_pcm_abs_le_one (s : Z) :
  -32767 <= s <= 32767 -> SFleb (SFabs (rescale_pcm s)) F32.one = true.
Proof.
  intros Hs. rewrite f32_one. unfold rescale_pcm, F32.div, F32.of_int at 1.
  change (F32.of_int 32767) with (S754_finite false 16776704 (-9)).
  assert (Hy : bounded F32.prec F32.emax 16776704 (-9) = true) by reflexivity.
  assert (Hcase : forall (sx : bool) (p : positive),
             Zpos p <= 32767 ->
             SFleb (SFabs (SFdiv F32.prec F32.emax (binary_round F32.prec F32.emax sx p 0)
                             (S754_finite false 16776704 (-9))))
               (Binary.one F32.prec) = true).
  { intros sx p Hp.
    destruct (BinaryFacts.binary_round_int F32.prec F32.emax BinaryFacts.format32 sx p)
      as (m & -> & Hm & Hb).
    { change (2 ^ F32.prec) with 16777216. lia. }
    assert (Hd : Zpos (digits2_pos p) <= 15).
    { apply (BinaryFacts.Zdigits2_le (Zpos p)); [lia |]. change (2 ^ 15) with 32768. lia. }
    destruct (Z.eq_dec (Zpos p) 32767) as [Heq | Hne].
    - assert (p = 32767%positive) by lia. subst p.
      change (Zpos (digits2_pos 32767) - F32.prec) with (-9) in *.
      assert (m = 16776704%positive) by (vm_compute in Hm; congruence). subst m.
      rewrite (BinaryFacts.SFdiv_self F32.prec F32.emax BinaryFacts.format32).
      cbn [SFabs]. apply BinaryFacts.SFleb_refl. constructor.
    - apply (BinaryFacts.SFdiv_lt_le_one F32.prec F32.emax BinaryFacts.format32);
        [exact Hb | exact Hy |].
      destruct (Z.eq_dec (Zpos (digits2_pos p)) 15) as [H15 | H15].
      + right. rewrite H15 in *. split; [reflexivity |].
        rewrite Hm. change (2 ^ (F32.prec - 15)) with 512. lia.
      + left. change F32.prec with 24. lia. }
  destruct s as [| p | p]; cbn [binary_normalize].
  - reflexivity.
  - apply Hcase. lia.
  - apply Hcase. lia.
Qed.

Lemma rescale_pcm_lowest :
  F32.ltb (rescale_pcm (-32768)) (F32.of_int (-1)) = true
  /\ f32_between (F32.of_int (-1)) F32.one (rescale_pcm (-32768)) = false
  /\ f32_between (rescale_pcm (-32768)) F32.one (rescale_pcm (-32768)) = true.
Proof. repeat split. Qed.

Lemma rescale_pcm_range (s : Z) :
  int16 s ->
  f32_between (rescale_pcm (-32768)) F32.one (rescale_pcm s) = true
  /\ (f32_between (F32.of_int (-1)) F32.one (rescale_pcm s) = true <-> s <> -32768).
Proof.
  intros [Hlo Hhi].
  destruct (Z.eq_dec s (-32768)) as [-> | Hne].
  - split; [apply rescale_pcm_lowest |].
    split; [intros H | intros H; now elim H].
    destruct rescale_pcm_lowest as (_ & Hout & _). congruence.
  - destruct (f32_abs_le_one_between (rescale_pcm s)) as [Hunit Hlow].
    { apply rescale_pcm_abs_le_one. lia. }
    split; [exact Hlow |]. split; auto.
Qed.

Lemma voice_guidance_inv (E : externals) (script : string) (w w' : world)
    (frames : list (spec_float * spec_float)) :
  generate_voice_guidance E script w = (Ok frames, w') ->
  exists speech pcm,
    gtts_speech E script = Ok speech
    /\ mp3_samples E speech = Ok pcm
    /\ frames = map (fun s => (rescale_pcm s, rescale_pcm s)) pcm.
Proof.
  unfold generate_voice_guidance, bind, named_temporary_file, with_block,
    close_handle, lift, write_file, read_file, ret.
  destruct (gtts_speech E script) as [speech | e]; cbn; [| discriminate].
  rewrite lookup_insert_eq.
  destruct (mp3_samples E speech) as [pcm | e] eqn:Hpcm; cbn; [| discriminate].
  intros H. inversion H; subst. exists speech, pcm.
  repeat split; [assumption |].
  unfold column_stack. clear. induction pcm as [| s pcm IH]; cbn; congruence.
Qed.

(** C9, as the code has it. The decoded samples are divided by 32767, the
    largest int16: every sample of the returned buffer lies between
    -32768/32767 (as a float32) and 1, both channels alike, and it lies in
    [-1, 1] exactly when the PCM sample is not -32768. *)
Theorem voice_samples_range (E : externals) (script : string) (w w' : world)
    (frames : list (spec_float * spec_float)) :
  (forall content pcm, mp3_samples E content = Ok pcm -> Forall int16 pcm) ->
  generate_voice_guidance E script w = (Ok frames, w') ->
  exists pcm,
    frames = map (fun s => (rescale_pcm s, rescale_pcm s)) pcm
    /\ Forall
         (fun s =>
            f32_between (rescale_pcm (-32768)) F32.one (rescale_pcm s) = true
            /\ (f32_between (F32.of_int (-1)) F32.one (rescale_pcm s) = true
                <-> s <> -32768))
         pcm.
Proof.
  intros Hdec Hrun.
  destruct (voice_guidance_inv E script w w' frames Hrun) as (speech & pcm & _ & Hpcm & ->).
  exists pcm. split; [reflexivity |].
  specialize (Hdec speech pcm Hpcm).
  clear Hpcm Hrun. induction Hdec as [| s pcm Hs _ IH]; constructor.
  - apply rescale_pcm_range, Hs.
  - exact IH.
Qed.

(** C9: the sample decoded as -32768 comes out below -1. *)
Lemma voice_sample_below_minus_one :
  exists frames,
    fst (generate_voice_guidance Standin.collaborators "hi" Standin.fresh) = Ok frames
    /\ Exists (fun '(l, r) => F32.ltb l (F32.of_int (-1)) = true) frames.
Proof.
  eexists. split; [vm_compute; reflexivity |].
  do 2 apply Exists_cons_tl. apply Exists_cons_hd. reflexivity.
Qed.

Lemma standin_decode_int16 (content : list Byte.byte) (pcm : list Z) :
  Standin.decode content = Ok pcm -> Forall int16 pcm.
Proof.
  unfold Standin.decode. intros H. inversion H; subst; clear H.
  induction content as [| b content IH]; constructor; [| assumption].
  unfold int16. destruct b; vm_compute; split; discriminate.
Qed.

Lemma voice_samples_range_witness :
  exists pcm,
    [(rescale_pcm 32767, rescale_pcm 32767); (rescale_pcm 32767, rescale_pcm 32767);
     (rescale_pcm (-32768), rescale_pcm (-32768)); (rescale_pcm 128, rescale_pcm 128)]
    = map (fun s => (rescale_pcm s, rescale_pcm s)) pcm
    /\ Forall
         (fun s =>
            f32_between (rescale_pcm (-32768)) F32.one (rescale_pcm s) = true
            /\ (f32_between (F32.of_int (-1)) F32.one (rescale_pcm s) = true
                <-> s <> -32768))
         pcm.
Proof.
  refine (voice_samples_range Standin.collaborators "hi" Standin.fresh
            (snd (generate_voice_guidance Standin.collaborators "hi" Standin.fresh))
            _ standin_decode_int16 _).
  vm_compute. reflexivity.
Defined.

(** ** Peak normalization *)

Lemma flatten_map_div (m : float) (a : stereo) :
  flatten (map (fun '(l, r) => (l / m, r / m)%float) a)
  = map (fun v => (v / m)%float) (flatten a).
Proof.
  unfold flatten. induction a as [| [l r] a IH]; cbn; [reflexivity |].
  now rewrite IH.
Qed.

Lemma peak_normalize_ok (a : stereo) (m : float) :
  peak a = Ok m ->
  peak_normalize a = Ok (map (fun '(l, r) => (l / m, r / m)%float) a).
Proof. unfold peak_normalize. now intros ->. Qed.

Lemma map_pair_div_one (a : stereo) :
  map (fun '(l, r) => (l / 1, r / 1)%float) a = a.
Proof.
  induction a as [| [l r] a IH]; cbn; [reflexivity |].
  now rewrite !F64Facts.div_one, IH.
Qed.

(** Normalizing a finite buffer that is not silent. *)
Lemma peak_normalize_spec (a : stereo) :
  all_finite (flatten a) -> not_silent (flatten a) ->
  exists out,
    peak_normalize a = Ok out
    /\ all_finite (flatten out)
    /\ peak out = Ok 1%float
    /\ peak_normalize out = Ok out.
Proof.
  intros Hfin Hex.
  destruct (F64Facts.normalize_peak_one (flatten a) Hfin Hex)
    as (m & Hpeak & Hnz & Hfin' & Hone).
  exists (map (fun '(l, r) => (l / m, r / m)%float) a).
  assert (Hone' : peak (map (fun '(l, r) => (l / m, r / m)%float) a) = Ok 1%float).
  { unfold peak. now rewrite flatten_map_div. }
  repeat split.
  - now apply peak_normalize_ok.
  - unfold all_finite. now rewrite flatten_map_div.
  - exact Hone'.
  - rewrite (peak_normalize_ok _ _ Hone'). now rewrite map_pair_div_one.
Qed.

(** C7: a mixed buffer that is not silent need not be finite. With an
    infinite sample the normalized buffer has a NaN in it, its peak is not
    1.0 and a second normalization changes it; with NaN samples, as in the
    mix of a tenth of a millisecond of wind chimes, the session returned
    is NaN throughout and its peak is NaN. *)
Lemma non_finite_mix_not_normalized :
  (not_silent (flatten [(infinity, 1)]%float)
   /\ peak_normalize [(infinity, 1)]%float = Ok [(nan, 0)]%float
   /\ peak [(nan, 0)]%float = Ok nan
   /\ peak_normalize [(nan, 0)]%float = Ok [(nan, nan)])
  /\ (fst (mix_session Standin.collaborators 0.0001 "alpha" (Some ["wind_chimes"]) None
             Standin.fresh)
      = Ok [(nan, nan); (nan, nan); (nan, nan); (nan, nan)]
      /\ not_silent (flatten [(nan, nan); (nan, nan); (nan, nan); (nan, nan)])
      /\ fst (create_guided_meditation Standin.collaborators 0.0001 "alpha"
                (Some ["wind_chimes"]) None Standin.fresh)
         = Ok [(nan, nan); (nan, nan); (nan, nan); (nan, nan)]
      /\ peak [(nan, nan); (nan, nan); (nan, nan); (nan, nan)] = Ok nan).
Proof.
  split; [split; [| repeat split; vm_compute; reflexivity] |].
  - apply Exists_cons_hd. reflexivity.
  - split; [vm_compute; reflexivity |].
    split; [apply Exists_cons_hd; reflexivity |].
    split; vm_compute; reflexivity.
Qed.

(** C7, as the code has it. Normalizing a mixed buffer that is finite (no
    NaN, no infinity) and not silent gives a buffer whose largest absolute
    sample is exactly 1.0 and which a second normalization leaves as it
    is; this buffer is what [create_guided_meditation] returns. *)
Theorem final_normalization_idempotent (mixed : stereo) :
  all_finite (flatten mixed) -> not_silent (flatten mixed) ->
  exists out,
    peak_normalize mixed = Ok out
    /\ peak out = Ok 1%float
    /\ peak_normalize out = Ok out
    /\ forall (E : externals) (duration : float) (target_state : string)
         (special : option (list string)) (custom_script : option string)
         (w w' : world),
         mix_session E duration target_state special custom_script w = (Ok mixed, w') ->
         create_guided_meditation E duration target_state special custom_script w
         = (Ok out, w').
Proof.
  intros Hfin Hex.
  destruct (peak_normalize_spec mixed Hfin Hex) as (out & Hnorm & _ & Hone & Hidem).
  exists out. repeat split; try assumption.
  intros E duration target_state special custom_script w w' Hmix.
  unfold create_guided_meditation. rewrite (bind_ok _ _ _ _ _ Hmix).
  unfold lift. now rewrite Hnorm.
Qed.

Lemma final_normalization_idempotent_witness :
  exists out,
    peak_normalize [(0.5, -0.25); (0, 0.125)]%float = Ok out
    /\ peak out = Ok 1%float
    /\ peak_normalize out = Ok out.
Proof.
  destruct (final_normalization_idempotent [(0.5, -0.25); (0, 0.125)]%float)
    as (out & H1 & H2 & H3 & _).
  - repeat constructor.
  - apply Exists_cons_hd. reflexivity.
  - exists out. repeat split; assumption.
Defined.

Example normalize_small_buffer :
  peak_normalize [(0.5, -0.25); (0, 0.125)]%float = Ok [(1, -0.5); (0, 0.25)]%float.
Proof. reflexivity. Qed.

(** ** The silent buffer *)

Lemma zero_sample (x : float) :
  is_zero x = true -> abs x = 0%float /\ (x / 0)%float = nan.
Proof.
  rewrite F64Facts.is_zero_spec. intros Hx.
  destruct (Prim2SF x) as [s | s | | s m e] eqn:HX; try discriminate.
  split; apply Prim2SF_inj.
  - now rewrite abs_spec, HX.
  - rewrite div_spec, HX. reflexivity.
Qed.

Lemma fold_maximum_zeros (l : list float) :
  Forall (fun x => x = 0%float) l -> fold_left F64.maximum l 0%float = 0%float.
Proof. induction 1 as [| x l -> _ IH]; [reflexivity | exact IH]. Qed.

Lemma silent_peak (l : list float) :
  l <> [] -> silent l -> F64.np_max (F64.np_abs l) = Ok 0%float.
Proof.
  intros Hne Hs. destruct l as [| x l]; [congruence |].
  inversion Hs as [| ? ? Hx Hl]; subst. cbn.
  destruct (zero_sample x Hx) as [-> _]. f_equal.
  apply fold_maximum_zeros. rewrite List.Forall_map.
  eapply List.Forall_impl; [| exact Hl]. intros y Hy. now apply zero_sample.
Qed.

Lemma silent_normalize (a : stereo) :
  silent (flatten a) ->
  map (fun '(l, r) => (l / 0, r / 0)%float) a = map (fun _ => (nan, nan)) a.
Proof.
  unfold silent, flatten. induction a as [| [l r] a IH]; cbn; intros Hs; [reflexivity |].
  inversion Hs as [| ? ? Hl Hs']; subst. inversion Hs' as [| ? ? Hr Hs'']; subst.
  destruct (zero_sample l Hl) as [_ ->]. destruct (zero_sample r Hr) as [_ ->].
  now rewrite IH.
Qed.

(** C8. The final normalization divides by the peak without looking at it:
    on a mixed buffer of zeros the peak is 0.0, no exception is raised, and
    every sample [create_guided_meditation] returns is NaN. *)
Theorem silent_mix_yields_nan (mixed : stereo) :
  mixed <> [] -> silent (flatten mixed) ->
  peak mixed = Ok 0%float
  /\ peak_normalize mixed = Ok (map (fun _ => (nan, nan)) mixed)
  /\ Forall (fun x => is_finite x = false) (flatten (map (fun _ => (nan, nan)) mixed))
  /\ forall (E : externals) (duration : float) (target_state : string)
       (special : option (list string)) (custom_script : option string)
       (w w' : world),
       mix_session E duration target_state special custom_script w = (Ok mixed, w') ->
       create_guided_meditation E duration target_state special custom_script w
       = (Ok (map (fun _ => (nan, nan)) mixed), w').
Proof.
  intros Hne Hs.
  assert (Hpeak : peak mixed = Ok 0%float).
  { apply silent_peak; [| exact Hs]. destruct mixed as [| [l r] a]; [congruence | discriminate]. }
  assert (Hnorm : peak_normalize mixed = Ok (map (fun _ => (nan, nan)) mixed)).
  { rewrite (peak_normalize_ok _ _ Hpeak). now rewrite silent_normalize. }
  repeat split; try assumption.
  - clear. unfold flatten. induction mixed as [| fr a IH]; cbn; repeat constructor. exact IH.
  - intros E duration target_state special custom_script w w' Hmix.
    unfold create_guided_meditation. rewrite (bind_ok _ _ _ _ _ Hmix).
    unfold lift. now rewrite Hnorm.
Qed.

Lemma silent_mix_yields_nan_witness :
  create_guided_meditation Standin.collaborators 0.00003 "alpha" None None Standin.fresh
  = (Ok [(nan, nan)], Standin.fresh).
Proof.
  refine (proj2 (proj2 (proj2 (silent_mix_yields_nan [(0, 0)]%float _ _)))
            Standin.collaborators 0.00003%float "alpha" None None
            Standin.fresh Standin.fresh _).
  - discriminate.
  - repeat constructor.
  - vm_compute. reflexivity.
Defined.

(** ** Special sounds: the waveform handed to the spatial renderer *)

Lemma generate_special_sound_unfold (E : externals) (sound_type : string)
    (p : sound_params) (duration : option float) (w w' : world) (audio : list float) :
  special_sounds !! sound_type = Some p ->
  normalized_preset E sound_type p duration w = (Ok audio, w') ->
  generate_special_sound E sound_type duration w
  = (create_spatial_effect E (Mono audio) (preset_position p) (Some circular_movement), w').
Proof.
  intros Hp Hn. unfold generate_special_sound. rewrite Hp.
  now rewrite (bind_ok _ _ _ _ _ Hn).
Qed.

(** *** Chimes that do not fit

    Products of floats without a sign bit have none either, so an onset
    index is never negative; when the waveform has at most 44100 samples
    the guard [idx + 44100 < len(audio)] is false for every onset. *)

Lemma binary_round_aux_unsigned (m e : Z) (l : location) :
  Binary.unsigned (binary_round_aux prec emax false m e l) = true.
Proof.
  unfold binary_round_aux.
  destruct (shr_fexp prec emax m e l) as [mrs e'].
  destruct (shr_fexp prec emax _ e' loc_Exact) as [mrs' e''].
  destruct (shr_m mrs'); try reflexivity.
  now destruct (Z.leb e'' (emax - prec)).
Qed.

Lemma mul_unsigned (a b : float) :
  Binary.unsigned (Prim2SF a) = true -> Binary.unsigned (Prim2SF b) = true ->
  Binary.unsigned (Prim2SF (a * b)) = true.
Proof.
  rewrite mul_spec. unfold SF64mul.
  destruct (Prim2SF a) as [sa | sa | | sa ma ea], (Prim2SF b) as [sb | sb | | sb mb eb];
    cbn [Binary.unsigned SFmul]; intros Ha Hb; try reflexivity;
    try (destruct sa; [discriminate |]); try (destruct sb; [discriminate |]);
    try reflexivity.
  apply binary_round_aux_unsigned.
Qed.

Lemma py_int_unsigned (x : float) (idx : Z) :
  Binary.unsigned (Prim2SF x) = true -> F64.py_int x = Ok idx -> 0 <= idx.
Proof.
  unfold F64.py_int. destruct (Prim2SF x) as [s | s | | s m e]; cbn [Binary.unsigned];
    intros Hu H; try discriminate.
  - inversion H. lia.
  - destruct s; [discriminate |]. inversion H; subst. cbn [cond_Zopp].
    apply Z.shiftl_nonneg. lia.
Qed.

Lemma chime_at_no_room (E : externals) (freq start : float) (t audio out : list float) :
  Binary.unsigned (Prim2SF start) = true ->
  Z.of_nat (length audio) <= 44100 ->
  chime_at E freq t audio start = Ok out -> out = audio.
Proof.
  intros Hs Hlen. unfold chime_at.
  destruct (F64.py_int (start * F64.of_int sample_rate)) as [idx | e] eqn:Hidx;
    cbn [rbind]; [| discriminate].
  assert (Hsr : Binary.unsigned (Prim2SF (F64.of_int sample_rate)) = true) by reflexivity.
  assert (0 <= idx).
  { apply (py_int_unsigned _ _ (mul_unsigned _ _ Hs Hsr) Hidx). }
  destruct (Z.ltb_spec (idx + 44100) (Z.of_nat (length audio))); [lia |].
  now intros [= <-].
Qed.

Lemma chime_onsets_no_room (E : externals) (freq : float) (t : list float)
    (starts : list float) :
  Forall (fun start => Binary.unsigned (Prim2SF start) = true) starts ->
  forall audio out,
    Z.of_nat (length audio) <= 44100 ->
    chime_onsets E freq t audio starts = Ok out -> out = audio.
Proof.
  induction 1 as [| start starts Hs _ IH]; intros audio out Hlen; cbn [chime_onsets].
  - now intros [= <-].
  - destruct (chime_at E freq t audio start) as [audio' | e] eqn:Hc; cbn [rbind];
      [| discriminate].
    apply chime_at_no_room in Hc; [subst audio' | assumption | assumption].
    now apply IH.
Qed.

Lemma wind_chimes_loop_no_room (E : externals) (duration : float) (t : list float)
    (freqs : list float) :
  (forall k, Binary.unsigned (Prim2SF (random_rand E k)) = true) ->
  Binary.unsigned (Prim2SF duration) = true ->
  forall audio w out w',
    Z.of_nat (length audio) <= 44100 ->
    wind_chimes_loop E freqs duration t audio w = (Ok out, w') -> out = audio.
Proof.
  intros Hr Hd. induction freqs as [| freq freqs IH]; intros audio w out w' Hlen;
    cbn [wind_chimes_loop].
  - unfold ret. now intros [= <- _].
  - unfold bind at 1. unfold random_rand_n at 1. cbn beta iota.
    unfold bind at 1, lift at 1.
    destruct (chime_onsets E freq t audio _) as [audio' | e] eqn:Hc; [| discriminate].
    apply chime_onsets_no_room in Hc; [subst audio' | | assumption].
    + intros Hrun. exact (IH _ _ _ _ Hlen Hrun).
    + rewrite !List.Forall_map. apply List.Forall_forall. intros k _.
      apply mul_unsigned; [apply Hr | exact Hd].
Qed.

(** Whatever numbers in [0, 1) are drawn, the chimes of a duration of at
    most one second (at most 44100 samples) are silent. *)
Lemma wind_chimes_up_to_one_second_silent (E : externals) (duration : float) (n : Z)
    (w w' : world) (raw : list float) :
  (forall k, Binary.unsigned (Prim2SF (random_rand E k)) = true) ->
  Binary.unsigned (Prim2SF duration) = true -> F64.truthy duration = true ->
  F64.py_int (F64.of_int sample_rate * duration) = Ok n -> n <= 44100 ->
  raw_preset E "wind_chimes" preset_wind_chimes (Some duration) w = (Ok raw, w') ->
  raw = repeat 0%float (Z.to_nat n) /\ silent raw.
Proof.
  intros Hr Hd Ht Hn Hle. unfold raw_preset, duration_or. rewrite Ht.
  rewrite (bind_ok _ _ w w n) by (unfold lift; now rewrite Hn).
  unfold F64.linspace. destruct (Z.ltb_spec n 0) as [Hneg | Hpos].
  { unfold bind, lift. discriminate. }
  rewrite allocate_least by (unfold least_capacity; lia).
  rewrite (bind_ok _ _ w w (F64.linspace_points 0 duration n)) by reflexivity.
  change (synthesize E "wind_chimes" preset_wind_chimes duration
            (F64.linspace_points 0 duration n))
    with (wind_chimes E preset_wind_chimes duration (F64.linspace_points 0 duration n)).
  unfold wind_chimes. intros Hrun.
  assert (Hz : F64.zeros_like (F64.linspace_points 0 duration n)
               = repeat 0%float (Z.to_nat n)).
  { unfold F64.zeros_like. rewrite <- (length_linspace_points 0 duration n).
    generalize (F64.linspace_points 0 duration n). intros l.
    induction l as [| x l IH]; cbn; [reflexivity | now rewrite IH]. }
  apply wind_chimes_loop_no_room in Hrun; try assumption.
  - subst raw. rewrite Hz. split; [reflexivity |].
    unfold silent. clear. induction (Z.to_nat n); cbn; constructor; auto.
  - unfold F64.zeros_like. rewrite length_map, length_linspace_points. lia.
Qed.

(** C6, as the code has it. When the waveform synthesized for a supported
    sound is finite and not silent, the division by its peak leaves a
    waveform whose largest absolute sample is exactly 1.0, and that is the
    waveform the spatial renderer receives. *)
Theorem special_sound_peak_is_one (E : externals) (sound_type : string)
    (p : sound_params) (duration : option float) (w w' : world) (raw : list float) :
  special_sounds !! sound_type = Some p ->
  raw_preset E sound_type p duration w = (Ok raw, w') ->
  all_finite raw -> not_silent raw ->
  exists audio,
    normalized_preset E sound_type p duration w = (Ok audio, w')
    /\ F64.np_max (F64.np_abs audio) = Ok 1%float
    /\ generate_special_sound E sound_type duration w
       = (create_spatial_effect E (Mono audio) (preset_position p)
            (Some circular_movement), w').
Proof.
  intros Hp Hraw Hfin Hex.
  destruct (F64Facts.normalize_peak_one raw Hfin Hex) as (m & Hpeak & _ & _ & Hone).
  assert (Hn : normalized_preset E sound_type p duration w
               = (Ok (map (fun v => (v / m)%float) raw), w')).
  { unfold normalized_preset. rewrite (bind_ok _ _ _ _ _ Hraw).
    unfold lift, bind, ret. now rewrite Hpeak. }
  exists (map (fun v => (v / m)%float) raw). repeat split; try assumption.
  now apply generate_special_sound_unfold.
Qed.

(** C6: the chimes need a full second after their onset; for a duration of
    0.0001 s none is added, the waveform is silent, and its normalization
    is NaN. *)
Lemma wind_chimes_short_duration_is_nan :
  special_sounds !! "wind_chimes" = Some preset_wind_chimes
  /\ fst (raw_preset Standin.collaborators "wind_chimes" preset_wind_chimes
            (Some 0.0001%float) Standin.fresh)
     = Ok [0; 0; 0; 0]%float
  /\ fst (normalized_preset Standin.collaborators "wind_chimes" preset_wind_chimes
            (Some 0.0001%float) Standin.fresh)
     = Ok [nan; nan; nan; nan]
  /\ F64.np_max (F64.np_abs [nan; nan; nan; nan]) = Ok nan.
Proof. repeat split; vm_compute; reflexivity. Qed.

Lemma special_sound_peak_is_one_witness :
  exists audio,
    fst (normalized_preset Standin.collaborators "om_chant" preset_om_chant
           (Some 0.0001%float) Standin.fresh) = Ok audio
    /\ F64.np_max (F64.np_abs audio) = Ok 1%float.
Proof.
  destruct (special_sound_peak_is_one Standin.collaborators "om_chant" preset_om_chant
              (Some 0.0001%float) Standin.fresh Standin.fresh
              (match fst (raw_preset Standin.collaborators "om_chant" preset_om_chant
                            (Some 0.0001%float) Standin.fresh) with
               | Ok raw => raw
               | Raise _ => []
               end))
    as (audio & Hn & Hone & _).
  - vm_compute. reflexivity.
  - vm_compute. reflexivity.
  - vm_compute. repeat constructor.
  - vm_compute. apply Exists_cons_tl, Exists_cons_hd. reflexivity.
  - exists audio. rewrite Hn. split; [reflexivity | exact Hone].
Defined.

(** ** The fallback tone *)










(** * Further properties of the pipeline *)

(** ** Spatial renderer: shapes and paths *)

Lemma combine_fst_snd (mics : stereo) : combine (map fst mics) (map snd mics) = mics.
Proof. induction mics as [| [l r] mics IH]; cbn; [reflexivity | now rewrite IH]. Qed.

Lemma source_signal_spec (audio : ndarray) :
  map fst match audio with
          | Mono a => map (fun v => (v, v)) a
          | Stereo a => a
          end = source_signal audio.
Proof. destruct audio as [a | a]; [apply map_fst_duplicate | reflexivity]. Qed.

Lemma assign_row_shape (output output' : list (list float)) (i : nat) (v : list float) :
  assign_row output i v = Ok output' -> map length output' = map length output.
Proof.
  unfold assign_row. destruct (output !! i) as [row |] eqn:Hrow; [| discriminate].
  assert (Hid : forall v', length v' = length row ->
                  map length (<[i := v']> output) = map length output).
  { intros v' Hv'. change (map length) with (fmap (M := list) (@length float)).
    rewrite list_fmap_insert, Hv'. apply list_insert_id.
    rewrite list_lookup_fmap, Hrow. reflexivity. }
  destruct (Nat.eqb_spec (length v) (length row)) as [Heq | Hne].
  - intros [= <-]. now apply Hid.
  - destruct v as [| c [| c' v]]; try discriminate.
    intros [= <-]. apply Hid. apply length_map.
Qed.

Lemma movement_loop_shape (E : externals) (idx : list nat)
    (xyz : option (list float * list float * list float)) (audio : list (list float)) :
  forall output output',
    movement_loop E idx xyz audio output = Ok output' ->
    map length output' = map length output.
Proof.
  induction idx as [| i idx IH]; intros output output'; cbn [movement_loop].
  - now intros [= <-].
  - destruct xyz as [[[x y] z] |]; [| discriminate].
    destruct (x !! i), (y !! i), (z !! i), (audio !! i); try discriminate.
    destruct (rotation_apply E _ _) as [v | e]; cbn [rbind]; [| discriminate].
    destruct (assign_row output i v) as [output1 | e] eqn:Ha; cbn [rbind]; [| discriminate].
    intros H. rewrite (IH _ _ H). now apply assign_row_shape in Ha.
Qed.

(** [_apply_movement] keeps the shape of its array. *)
Lemma apply_movement_shape (E : externals) (audio output : list (list float))
    (movement : gmap string pyval) :
  _apply_movement E audio movement = Ok output ->
  map length output = map length audio.
Proof.
  unfold _apply_movement.
  destruct (movement_times E audio) as [t | e]; cbn [rbind]; [| discriminate].
  destruct (trajectory E _ _ t) as [xyz | e]; cbn [rbind]; [| discriminate].
  intros H. apply movement_loop_shape in H. rewrite H, !map_map.
  apply map_ext. intros row. apply length_map.
Qed.

(** X1. Whatever the movement, a rendering that succeeds has exactly as
    many frames as the room engine produced: the movement stage rewrites
    the rows it is given and never changes their number or their length. *)
Theorem spatial_effect_keeps_engine_length (E : externals) (audio : ndarray)
    (pos : position) (movement : option (gmap string pyval)) (out : stereo) :
  create_spatial_effect E audio pos movement = Ok out ->
  exists mics,
    room_simulate E pos (source_signal audio) = Ok mics
    /\ length out = length mics.
Proof.
  unfold create_spatial_effect.
  rewrite source_signal_spec.
  destruct (room_simulate E pos (source_signal audio)) as [mics | e]; cbn [rbind];
    [| discriminate].
  intros H. exists mics. split; [reflexivity |].
  assert (Hshape : forall output,
             map length output = [length mics; length mics] ->
             length (transpose output) = length mics).
  { intros output Ho. destruct output as [| r0 [| r1 [| r2 output]]]; try discriminate.
    injection Ho as H0 H1. unfold transpose. cbn [nth].
    rewrite length_combine, H0, H1. lia. }
  assert (Hrows : map length [map fst mics; map snd mics] = [length mics; length mics]).
  { cbn [map]. now rewrite !length_map. }
  destruct movement as [m |].
  - destruct (movement_given (Some m)).
    + destruct (_apply_movement E _ m) as [output | e] eqn:Hm; cbn [rbind] in H;
        [| discriminate].
      injection H as <-. apply Hshape.
      rewrite (apply_movement_shape _ _ _ _ Hm). exact Hrows.
    + cbn [rbind] in H. injection H as <-. now apply Hshape.
  - cbn [rbind] in H. injection H as <-. now apply Hshape.
Qed.

Lemma spatial_effect_keeps_engine_length_witness :
  exists out mics,
    create_spatial_effect Standin.collaborators (Mono [1; 2; 3]%float)
      (2.5, 2.5, 1.5)%float (Some circular_movement) = Ok out
    /\ room_simulate Standin.collaborators (2.5, 2.5, 1.5)%float [1; 2; 3]%float = Ok mics
    /\ length out = length mics.
Proof.
  destruct (create_spatial_effect Standin.collaborators (Mono [1; 2; 3]%float)
              (2.5, 2.5, 1.5)%float (Some circular_movement)) as [out | e] eqn:Hrun.
  - destruct (spatial_effect_keeps_engine_length Standin.collaborators
                (Mono [1; 2; 3]%float) (2.5, 2.5, 1.5)%float (Some circular_movement)
                out Hrun) as (mics & Hroom & Hlen).
    exists out, mics. split; [reflexivity | split; assumption].
  - vm_compute in Hrun. discriminate Hrun.
Defined.

Lemma create_spatial_effect_still (E : externals) (audio : ndarray) (pos : position)
    (movement : option (gmap string pyval)) :
  movement_given movement = false ->
  create_spatial_effect E audio pos movement = room_simulate E pos (source_signal audio).
Proof.
  intros Hm. unfold create_spatial_effect. rewrite source_signal_spec.
  destruct (room_simulate E pos (source_signal audio)) as [mics | e]; [| reflexivity].
  cbn [rbind].
  assert (Hback : transpose [map fst mics; map snd mics] = mics).
  { unfold transpose. cbn [nth]. apply combine_fst_snd. }
  destruct movement as [m |]; [rewrite Hm |]; cbn [rbind]; now rewrite Hback.
Qed.

(** X2. Without a movement (none given, or an empty dictionary) the
    renderer returns what the room engine rendered, unchanged. *)
Theorem spatial_effect_without_movement (E : externals) (audio : ndarray) (pos : position) :
  create_spatial_effect E audio pos None = room_simulate E pos (source_signal audio)
  /\ create_spatial_effect E audio pos (Some ∅) = room_simulate E pos (source_signal audio).
Proof. split; now apply create_spatial_effect_still. Qed.

(** X3. Of a two-channel input only the first channel reaches the room:
    the rendering is that of the mono signal made of channel 0, whatever
    the second channel holds. *)
Theorem spatial_effect_uses_first_channel (E : externals) (a : stereo) (pos : position)
    (movement : option (gmap string pyval)) :
  create_spatial_effect E (Stereo a) pos movement
  = create_spatial_effect E (Mono (map fst a)) pos movement.
Proof.
  unfold create_spatial_effect. now rewrite map_fst_duplicate.
Qed.

(** X4. A movement whose pattern is neither 'circular' nor 'spiral' leaves
    x, y and z unbound: once the room has rendered, the call fails with
    [UnboundLocalError] at the first turn of the loop. *)
Theorem unknown_pattern_is_unbound (E : externals) (audio : ndarray) (pos : position)
    (movement : gmap string pyval) (pattern : pyval) (mics : stereo) :
  movement !! "pattern" = Some pattern ->
  pyval_eqb pattern (PStr "circular") = false ->
  pyval_eqb pattern (PStr "spiral") = false ->
  room_simulate E pos (source_signal audio) = Ok mics ->
  create_spatial_effect E audio pos (Some movement) = Raise (UnboundLocalError "x").
Proof.
  intros Hp Hc Hs Hroom.
  unfold create_spatial_effect. rewrite source_signal_spec, Hroom. cbn [rbind].
  assert (Hgiven : movement_given (Some movement) = true).
  { unfold movement_given. apply negb_true_iff, bool_decide_eq_false.
    intros ->. rewrite lookup_empty in Hp. discriminate. }
  rewrite Hgiven. unfold _apply_movement.
  rewrite movement_grid_of_two_rows. cbn [rbind].
  cbv zeta. unfold dict_get. rewrite Hp.
  change (default (PStr "circular") (Some pattern)) with pattern.
  unfold trajectory. rewrite Hc, Hs. reflexivity.
Qed.

Lemma unknown_pattern_is_unbound_witness :
  create_spatial_effect Standin.collaborators (Mono [1; 2; 3]%float) (2.5, 2.5, 1.5)%float
    (Some {[ "pattern" := PStr "zigzag" ]})
  = Raise (UnboundLocalError "x").
Proof.
  refine (unknown_pattern_is_unbound Standin.collaborators (Mono [1; 2; 3]%float)
            (2.5, 2.5, 1.5)%float {[ "pattern" := PStr "zigzag" ]} (PStr "zigzag")
            [(1, 1); (2, 2); (3, 3)]%float _ _ _ _); reflexivity.
Defined.

(** ** Session composer: length and alignment *)

Lemma length_column_stack {A} (a : list A) : length (column_stack a a) = length a.
Proof. unfold column_stack. rewrite length_combine. lia. Qed.

Lemma fallback_bed_inv (E : externals) (duration : float) (target_state : string)
    (w w' : world) (base : stereo) :
  fallback_bed E duration target_state w = (Ok base, w') ->
  exists n band,
    F64.py_int (F64.of_int sample_rate * duration) = Ok n
    /\ 0 <= n
    /\ brainwave_states !! target_state = Some band
    /\ base = (let wave := tone E (2 * F64.np_pi * np_mean band)
                             (F64.linspace_points 0 duration n) in
               column_stack wave wave)
    /\ w' = w.
Proof.
  unfold fallback_bed. intros H.
  apply bind_inv_ok in H. destruct H as (n & w1 & Hn & H).
  apply lift_inv_ok in Hn. destruct Hn as [Hn ->].
  apply bind_inv_ok in H. destruct H as (t & w1 & Ht & H).
  apply lift_inv_ok in Ht. destruct Ht as [Ht ->].
  apply linspace_inv in Ht. destruct Ht as (Hpos & _ & ->).
  destruct (brainwave_states !! target_state) as [band |]; [| discriminate].
  inversion H; subst. now exists n, band.
Qed.

Lemma voice_overlay_inv (E : externals) (base_audio : stereo)
    (custom_script : option string) (w w' : world) (mixed : stereo) :
  voice_overlay E base_audio custom_script w = (Ok mixed, w') ->
  (script_given custom_script = false /\ mixed = base_audio /\ w' = w)
  \/ (script_given custom_script = true
      /\ exists frames voice,
           generate_voice_guidance E (default "" custom_script) w = (Ok frames, w')
           /\ room_simulate E (2.5, 2.5, 1.7)%float
                (map (fun fr => F32.to_f64 (fst fr)) frames) = Ok voice
           /\ mixed = add_stereo (fit_length voice (length base_audio))
                        (scale 0.3 base_audio)).
Proof.
  unfold voice_overlay. destruct (script_given custom_script).
  - intros H. right. split; [reflexivity |].
    apply bind_inv_ok in H. destruct H as (frames & w1 & Hv & H).
    apply bind_inv_ok in H. destruct H as (voice & w2 & Hs & H).
    apply lift_inv_ok in Hs. destruct Hs as [Hs ->].
    inversion H; subst. exists frames, voice. repeat split; [assumption |].
    rewrite create_spatial_effect_still in Hs by reflexivity.
    cbn [source_signal] in Hs. rewrite map_map in Hs.
    rewrite <- Hs. f_equal. apply map_ext. now intros [l r].
  - intros H. left. inversion H. now subst.
Qed.

Lemma length_voice_overlay (E : externals) (base_audio : stereo)
    (custom_script : option string) (w w' : world) (mixed : stereo) :
  voice_overlay E base_audio custom_script w = (Ok mixed, w') ->
  length mixed = length base_audio.
Proof.
  intros H. apply voice_overlay_inv in H.
  destruct H as [(_ & -> & _) | (_ & frames & voice & _ & _ & ->)]; [reflexivity |].
  rewrite length_add_stereo; rewrite length_fit_length; [reflexivity |].
  now rewrite length_scale.
Qed.

Lemma length_base_audio (E : externals) (duration : float) (target_state : string)
    (special : option (list string)) (w w' : world) (base : stereo) :
  (if sounds_given special then create_atmos_mix E (default [] special) duration
   else fallback_bed E duration target_state) w = (Ok base, w') ->
  F64.py_int (F64.of_int sample_rate * duration) = Ok (Z.of_nat (length base)).
Proof.
  destruct (sounds_given special); intros H.
  - apply create_atmos_mix_inv in H.
    destruct H as (n & rendered & Hn & Hpos & _ & _ & _ & ->).
    now rewrite length_fold_accumulate, repeat_length, Z2Nat.id.
  - apply fallback_bed_inv in H. destruct H as (n & band & Hn & Hpos & _ & -> & _).
    cbv zeta. unfold tone.
    now rewrite length_column_stack, length_map, length_linspace_points, Z2Nat.id.
Qed.

Lemma peak_normalize_inv (a out : stereo) :
  peak_normalize a = Ok out ->
  exists m, peak a = Ok m /\ out = map (fun '(l, r) => (l / m, r / m)%float) a /\ a <> [].
Proof.
  unfold peak_normalize. destruct (peak a) as [m |] eqn:Hm; cbn [rbind]; [| discriminate].
  intros [= <-]. exists m. repeat split. intros ->. discriminate.
Qed.

(** X5. A session that is returned has exactly [int(sample_rate *
    duration)] frames, whichever bed it is built on and whether or not a
    voice is laid over it; and it has at least one frame, the final
    normalization having no maximum to divide by on an empty buffer. *)
Theorem session_length (E : externals) (duration : float) (target_state : string)
    (special : option (list string)) (custom_script : option string)
    (w w' : world) (out : stereo) :
  create_guided_meditation E duration target_state special custom_script w = (Ok out, w') ->
  F64.py_int (F64.of_int sample_rate * duration) = Ok (Z.of_nat (length out))
  /\ (0 < length out)%nat.
Proof.
  unfold create_guided_meditation. intros H.
  apply bind_inv_ok in H. destruct H as (mixed & w1 & Hmix & H).
  apply lift_inv_ok in H. destruct H as [H ->].
  apply peak_normalize_inv in H. destruct H as (m & _ & -> & Hne).
  rewrite length_map. unfold mix_session in Hmix.
  apply bind_inv_ok in Hmix. destruct Hmix as (base & w0 & Hbase & Hmix).
  apply length_voice_overlay in Hmix. apply length_base_audio in Hbase.
  split; [now rewrite Hmix |].
  destruct mixed; [congruence | cbn; lia].
Qed.

Lemma session_length_witness :
  exists out,
    fst (create_guided_meditation Standin.collaborators 0.0001 "theta"
           (Some ["om_chant"]) (Some "breathe") Standin.fresh) = Ok out
    /\ F64.py_int (F64.of_int sample_rate * 0.0001) = Ok (Z.of_nat (length out))
    /\ (0 < length out)%nat.
Proof.
  destruct (create_guided_meditation Standin.collaborators 0.0001 "theta"
              (Some ["om_chant"]) (Some "breathe") Standin.fresh)
    as [[out | e] w'] eqn:Hrun.
  - exists out. split; [reflexivity |].
    exact (session_length Standin.collaborators 0.0001 "theta" (Some ["om_chant"])
             (Some "breathe") Standin.fresh w' out Hrun).
  - vm_compute in Hrun. discriminate Hrun.
Defined.

(** X6. A duration too short for a single sample (0 included) gives an
    empty fallback bed; without a script the session then fails in the
    final normalization, [np.max] having nothing to reduce, and nothing
    else has happened. *)
Theorem too_short_session_raises (E : externals) (duration : float)
    (target_state : string) (band : float * float) (special : option (list string))
    (custom_script : option string) (w : world) :
  F64.py_int (F64.of_int sample_rate * duration) = Ok 0 ->
  brainwave_states !! target_state = Some band ->
  sounds_given special = false ->
  script_given custom_script = false ->
  create_guided_meditation E duration target_state special custom_script w
  = (Raise (ValueError "zero-size array to reduction operation maximum which has no identity"),
     w).
Proof.
  intros Hn Hband Hs Hc.
  unfold create_guided_meditation, mix_session, fallback_bed, voice_overlay.
  rewrite Hs, Hc, Hn, Hband. unfold bind, lift.
  rewrite linspace_least by (unfold least_capacity; lia). reflexivity.
Qed.

Lemma too_short_session_raises_witness :
  create_guided_meditation Standin.collaborators 0.00001 "delta" (Some []) (Some "")
    Standin.fresh
  = (Raise (ValueError "zero-size array to reduction operation maximum which has no identity"),
     Standin.fresh).
Proof.
  refine (too_short_session_raises Standin.collaborators 0.00001 "delta" (0.5, 4)%float
            (Some []) (Some "") Standin.fresh _ _ _ _); reflexivity.
Defined.

Lemma lookup_repeat {A} (x : A) (k : nat) :
  forall i, (i < k)%nat -> repeat x k !! i = Some x.
Proof.
  induction k as [| k IH]; intros [| i] Hi; cbn; try lia; [reflexivity |].
  apply IH. lia.
Qed.

Lemma fit_length_lookup (sound : stereo) (n i : nat) :
  (i < n)%nat -> fit_length sound n !! i = Some (nth i sound (0, 0)%float).
Proof.
  intros Hi. unfold fit_length, pad_rows.
  destruct (Nat.ltb_spec (length sound) n) as [Hlt | Hge].
  - destruct (Nat.lt_ge_cases i (length sound)) as [Hin | Hout].
    + rewrite lookup_app_l by assumption.
      destruct (nth_lookup_or_length sound i (0, 0)%float) as [-> | ?]; [reflexivity | lia].
    + rewrite lookup_app_r by assumption.
      rewrite nth_overflow by assumption.
      apply lookup_repeat. lia.
  - rewrite lookup_take_lt by assumption.
    destruct (nth_lookup_or_length sound i (0, 0)%float) as [-> | ?]; [reflexivity | lia].
Qed.

(** X7. How the voice is laid over the bed: the mix has the length of the
    bed; frame by frame it is the room-rendered voice plus 0.3 times the
    bed, a voice shorter than the bed counting as zeros past its end and a
    longer one being cut. *)
Theorem voice_overlay_alignment (E : externals) (base_audio : stereo)
    (custom_script : option string) (w w' : world) (mixed : stereo) :
  script_given custom_script = true ->
  voice_overlay E base_audio custom_script w = (Ok mixed, w') ->
  exists frames voice,
    generate_voice_guidance E (default "" custom_script) w = (Ok frames, w')
    /\ room_simulate E (2.5, 2.5, 1.7)%float
         (map (fun fr => F32.to_f64 (fst fr)) frames) = Ok voice
    /\ length mixed = length base_audio
    /\ forall (i : nat) (l r : float),
         base_audio !! i = Some (l, r) ->
         mixed !! i
         = Some (fst (nth i voice (0, 0)) + l * 0.3, snd (nth i voice (0, 0)) + r * 0.3)%float.
Proof.
  intros Hs H. pose proof (length_voice_overlay _ _ _ _ _ _ H) as Hlen.
  apply voice_overlay_inv in H.
  destruct H as [(Hs' & _) | (_ & frames & voice & Hv & Hroom & ->)]; [congruence |].
  exists frames, voice. repeat split; try assumption.
  intros i l r Hi. unfold add_stereo, scale.
  rewrite lookup_zip_with.
  rewrite fit_length_lookup by (now apply lookup_lt_Some in Hi).
  change (map ?f base_audio) with (f <$> base_audio).
  rewrite list_lookup_fmap, Hi. cbn.
  now destruct (nth i voice (0, 0)%float).
Qed.

Lemma voice_overlay_alignment_witness :
  exists mixed,
    fst (voice_overlay Standin.collaborators [(1, 1); (2, 2)]%float (Some "om")
           Standin.fresh) = Ok mixed
    /\ length mixed = 2%nat.
Proof.
  destruct (voice_overlay Standin.collaborators [(1, 1); (2, 2)]%float (Some "om")
              Standin.fresh) as [[mixed | e] w'] eqn:Hrun.
  - exists mixed. split; [reflexivity |].
    destruct (voice_overlay_alignment Standin.collaborators [(1, 1); (2, 2)]%float
                (Some "om") Standin.fresh w' mixed eq_refl Hrun)
      as (frames & voice & _ & _ & Hlen & _).
    exact Hlen.
  - vm_compute in Hrun. discriminate Hrun.
Defined.

(** ** Unknown sound identifiers *)

Lemma atmos_loop_unknown (E : externals) (count : nat) (duration : float)
    (sound_type : string) (sounds : list string) :
  In sound_type sounds -> special_sounds !! sound_type = None ->
  forall output w, exists e w',
    atmos_loop E sounds count duration output w = (Raise e, w').
Proof.
  intros Hin Hnone. induction sounds as [| s sounds IH]; [destruct Hin |].
  intros output w. cbn [atmos_loop].
  destruct (generate_special_sound E s (Some duration) w) as [[sound | e] w1] eqn:Hs.
  - destruct Hin as [-> | Hin].
    + unfold generate_special_sound in Hs. rewrite Hnone in Hs. discriminate.
    + rewrite (bind_ok _ _ _ _ _ Hs). now apply IH.
  - exists e, w1. now apply bind_raise.
Qed.

(** X8. One unknown sound identifier anywhere in the list is enough for
    the session to fail: no waveform is returned, whatever the other
    identifiers, the band and the script are. *)
Theorem unknown_sound_never_returns (E : externals) (duration : float)
    (target_state sound_type : string) (sounds : list string)
    (custom_script : option string) (w : world) :
  In sound_type sounds -> special_sounds !! sound_type = None ->
  exists e w',
    create_guided_meditation E duration target_state (Some sounds) custom_script w
    = (Raise e, w').
Proof.
  intros Hin Hnone.
  assert (Hmix : exists e w', create_atmos_mix E sounds duration w = (Raise e, w')).
  { unfold create_atmos_mix.
    destruct (F64.py_int (F64.of_int sample_rate * duration)) as [n | e] eqn:Hn.
    - rewrite (bind_ok _ _ w w n) by reflexivity.
      destruct (np_zeros (capacity E) n) as [output | e] eqn:Hz.
      + rewrite (bind_ok _ _ w w output) by reflexivity.
        now apply atmos_loop_unknown with sound_type.
      + exists e, w. now apply bind_raise.
    - exists e, w. now apply bind_raise. }
  destruct Hmix as (e & w' & Hmix). exists e, w'.
  unfold create_guided_meditation, mix_session.
  replace (sounds_given (Some sounds)) with true by (destruct sounds; [destruct Hin | reflexivity]).
  apply bind_raise. now apply bind_raise.
Qed.

Lemma unknown_sound_never_returns_witness :
  exists e w',
    create_guided_meditation Standin.collaborators 0.0001 "alpha"
      (Some ["om_chant"; "rain"]) None Standin.fresh
    = (Raise e, w').
Proof.
  refine (unknown_sound_never_returns Standin.collaborators 0.0001 "alpha" "rain"
            ["om_chant"; "rain"] None Standin.fresh _ _).
  - right. left. reflexivity.
  - reflexivity.
Defined.

(** X9. When the first identifier of the list is unknown and the output
    array of line 186 can be built ([int(sample_rate * duration)] is not
    negative and [np.zeros] has room for that many frames), the failure is
    the [ValueError] of [generate_special_sound] naming the identifier,
    raised before anything is rendered, spoken or drawn. *)
Theorem unknown_first_sound_value_error (E : externals) (duration : float)
    (target_state sound_type : string) (sounds : list string)
    (custom_script : option string) (w : world) (n : Z) :
  F64.py_int (F64.of_int sample_rate * duration) = Ok n -> 0 <= n ->
  F64.allocate (capacity E) (2 * n) = Ok tt ->
  special_sounds !! sound_type = None ->
  create_guided_meditation E duration target_state (Some (sound_type :: sounds))
    custom_script w
  = (Raise (ValueError ("Unknown sound type: " +:+ sound_type)), w).
Proof.
  intros Hn Hpos Hroom Hnone.
  unfold create_guided_meditation, mix_session, create_atmos_mix.
  cbn [sounds_given default from_option id].
  apply bind_raise. apply bind_raise.
  rewrite (bind_ok _ _ w w n) by (unfold lift; now rewrite Hn).
  rewrite (bind_ok _ _ w w (repeat (0, 0)%float (Z.to_nat n)))
    by (unfold lift; now rewrite np_zeros_ok).
  cbn [atmos_loop]. apply bind_raise.
  unfold generate_special_sound. now rewrite Hnone.
Qed.

(** With a duration of 1e300 seconds the output array cannot be built:
    the error is that of [np.zeros], and the identifiers are not looked
    at. *)
Example unknown_sound_huge_duration :
  create_guided_meditation Standin.collaborators 1e300 "alpha" (Some ["rain"]) None
    Standin.fresh
  = (Raise (ValueError "Maximum allowed size exceeded"), Standin.fresh).
Proof. vm_compute. reflexivity. Qed.

Lemma unknown_first_sound_value_error_witness :
  create_guided_meditation Standin.collaborators 0.0001 "alpha"
    (Some ["rain"; "om_chant"]) (Some "breathe") Standin.fresh
  = (Raise (ValueError "Unknown sound type: rain"), Standin.fresh).
Proof.
  refine (unknown_first_sound_value_error Standin.collaborators 0.0001 "alpha" "rain"
            ["om_chant"] (Some "breathe") Standin.fresh 4 _ _ _ _);
    [reflexivity | lia | reflexivity | reflexivity].
Defined.

(** ** Length of the synthesized waveforms *)

Lemma length_vadd (a b : list float) :
  length b = length a -> length (F64.vadd a b) = length a.
Proof. intros H. unfold F64.vadd. rewrite length_zip_with. lia. Qed.

Lemma length_tone (E : externals) (c : float) (t : list float) :
  length (tone E c t) = length t.
Proof. apply length_map. Qed.

Lemma length_fold_left {A B} (f : list A -> B -> list A) (n : nat) (l : list B) :
  (forall acc x, length acc = n -> length (f acc x) = n) ->
  forall init, length init = n -> length (fold_left f l init) = n.
Proof.
  intros Hf. induction l as [| x l IH]; intros init Hinit; cbn [fold_left]; auto.
Qed.

Lemma length_crystal_bowls (E : externals) (p : sound_params) (t : list float) :
  length (crystal_bowls E p t) = length t.
Proof.
  unfold crystal_bowls. apply length_fold_left.
  - intros acc freq Hacc.
    unfold F64.vadd. rewrite !length_zip_with, !length_map, !length_tone. lia.
  - apply length_map.
Qed.

Lemma length_om_chant (E : externals) (p : sound_params) (t audio : list float) :
  om_chant E p t = Ok audio -> length audio = length t.
Proof.
  unfold om_chant. destruct (base_freq p) as [base |]; [| discriminate].
  intros [= <-]. apply length_fold_left.
  - intros acc harmonic Hacc.
    rewrite length_vadd; [exact Hacc |]. rewrite length_map, length_tone. congruence.
  - apply length_tone.
Qed.

Lemma slice_bounds_spec (n start stop lo hi : Z) :
  0 <= n -> slice_bounds n start stop = (lo, hi) -> 0 <= lo <= hi /\ hi <= n.
Proof.
  unfold slice_bounds. intros Hn [= <- <-].
  destruct (Z.ltb_spec start 0), (Z.ltb_spec stop 0); lia.
Qed.

(** [audio[start:stop] += chime] never changes the length of [audio]. *)
Lemma length_slice_iadd (audio chime out : list float) (start stop : Z) :
  slice_iadd audio start stop chime = Ok out -> length out = length audio.
Proof.
  unfold slice_iadd.
  destruct (slice_bounds (Z.of_nat (length audio)) start stop) as [lo hi] eqn:Hb.
  apply slice_bounds_spec in Hb; [| lia].
  set (target := firstn (Z.to_nat hi - Z.to_nat lo) (skipn (Z.to_nat lo) audio)).
  assert (Ht : length target = (Z.to_nat hi - Z.to_nat lo)%nat).
  { subst target. rewrite length_firstn, length_skipn. lia. }
  assert (Hsum : forall mid : list float,
             length mid = length target ->
             length (firstn (Z.to_nat lo) audio ++ mid ++ skipn (Z.to_nat hi) audio)%list
             = length audio).
  { intros mid Hmid. rewrite !length_app, length_firstn, length_skipn, Hmid, Ht. lia. }
  destruct (Nat.eqb_spec (length chime) (length target)) as [Heq | Hne].
  - intros [= <-]. apply Hsum. now apply length_vadd.
  - destruct chime as [| c [| c' chime]]; try discriminate.
    intros [= <-]. apply Hsum. apply length_map.
Qed.

Lemma length_chime_at (E : externals) (freq start : float) (t audio out : list float) :
  chime_at E freq t audio start = Ok out -> length out = length audio.
Proof.
  unfold chime_at.
  destruct (F64.py_int _) as [idx | e]; cbn [rbind]; [| discriminate].
  destruct (Z.ltb (idx + 44100) (Z.of_nat (length audio))).
  - apply length_slice_iadd.
  - now intros [= <-].
Qed.

Lemma length_chime_onsets (E : externals) (freq : float) (t : list float)
    (starts : list float) :
  forall audio out,
    chime_onsets E freq t audio starts = Ok out -> length out = length audio.
Proof.
  induction starts as [| start starts IH]; intros audio out; cbn [chime_onsets].
  - now intros [= <-].
  - destruct (chime_at E freq t audio start) as [audio' | e] eqn:Hc; cbn [rbind];
      [| discriminate].
    intros H. rewrite (IH _ _ H). now apply length_chime_at in Hc.
Qed.

(** The loop over the chime frequencies keeps the length of the waveform
    and draws five random numbers for each frequency. *)
Lemma wind_chimes_loop_inv (E : externals) (duration : float) (t : list float)
    (freqs : list float) :
  forall audio w out w',
    wind_chimes_loop E freqs duration t audio w = (Ok out, w') ->
    length out = length audio
    /\ files w' = files w /\ open_handles w' = open_handles w
    /\ temp_count w' = temp_count w
    /\ rng_draws w' = (rng_draws w + 5 * length freqs)%nat.
Proof.
  induction freqs as [| freq freqs IH]; intros audio w out w'; cbn [wind_chimes_loop].
  - unfold ret. intros [= <- <-]. repeat split. cbn. lia.
  - unfold bind at 1. unfold random_rand_n at 1. cbn beta iota.
    unfold bind at 1, lift at 1.
    destruct (chime_onsets E freq t audio _) as [audio' | e] eqn:Hc; [| discriminate].
    apply length_chime_onsets in Hc. intros Hrun.
    apply IH in Hrun. cbn [files open_handles temp_count rng_draws length] in Hrun.
    destruct Hrun as (Hlen & Hf & Hh & Ht & Hr). cbn [length].
    repeat split; try assumption; [congruence | lia].
Qed.

Lemma raw_preset_inv (E : externals) (sound_type : string) (p : sound_params)
    (duration : option float) (w w' : world) (raw : list float) :
  raw_preset E sound_type p duration w = (Ok raw, w') ->
  exists n,
    F64.py_int (F64.of_int sample_rate * duration_or duration (preset_duration p)) = Ok n
    /\ 0 <= n
    /\ synthesize E sound_type p (duration_or duration (preset_duration p))
         (F64.linspace_points 0 (duration_or duration (preset_duration p)) n) w
       = (Ok raw, w').
Proof.
  unfold raw_preset. intros H.
  apply bind_inv_ok in H. destruct H as (n & w1 & Hn & H).
  apply lift_inv_ok in Hn. destruct Hn as [Hn ->].
  apply bind_inv_ok in H. destruct H as (t & w1 & Ht & H).
  apply lift_inv_ok in Ht. destruct Ht as [Ht ->].
  apply linspace_inv in Ht. destruct Ht as (Hpos & _ & ->). now exists n.
Qed.

Lemma length_synthesize (E : externals) (sound_type : string) (p : sound_params)
    (duration : float) (t : list float) (w w' : world) (raw : list float) :
  synthesize E sound_type p duration t w = (Ok raw, w') -> length raw = length t.
Proof.
  unfold synthesize.
  destruct (bool_decide (sound_type = "crystal_bowls")).
  { unfold ret. intros [= <- _]. apply length_crystal_bowls. }
  destruct (bool_decide (sound_type = "om_chant")).
  { intros H. apply lift_inv_ok in H. destruct H as [H _]. now apply length_om_chant in H. }
  destruct (bool_decide (sound_type = "wind_chimes")); [| discriminate].
  unfold wind_chimes. intros H. apply wind_chimes_loop_inv in H.
  destruct H as (-> & _). apply length_map.
Qed.

Lemma normalized_preset_inv (E : externals) (sound_type : string) (p : sound_params)
    (duration : option float) (w w' : world) (audio : list float) :
  normalized_preset E sound_type p duration w = (Ok audio, w') ->
  exists raw m,
    raw_preset E sound_type p duration w = (Ok raw, w')
    /\ F64.np_max (F64.np_abs raw) = Ok m
    /\ audio = map (fun v => (v / m)%float) raw.
Proof.
  unfold normalized_preset. intros H.
  apply bind_inv_ok in H. destruct H as (raw & w1 & Hraw & H).
  apply bind_inv_ok in H. destruct H as (m & w2 & Hm & H).
  apply lift_inv_ok in Hm. destruct Hm as [Hm ->].
  inversion H; subst. now exists raw, m.
Qed.

(** X10. The mono waveform handed to the spatial renderer has exactly
    [int(sample_rate * d)] samples, [d] being the duration asked for or,
    when none (or 0) is asked for, that of the preset; it is never empty.
    This holds for the three sounds alike: adding partials, harmonics or
    chimes in place never changes the length of the time grid. *)
Theorem special_sound_waveform_length (E : externals) (sound_type : string)
    (p : sound_params) (duration : option float) (w w' : world) (audio : list float) :
  normalized_preset E sound_type p duration w = (Ok audio, w') ->
  F64.py_int (F64.of_int sample_rate * duration_or duration (preset_duration p))
  = Ok (Z.of_nat (length audio))
  /\ (0 < length audio)%nat.
Proof.
  intros H. apply normalized_preset_inv in H. destruct H as (raw & m & Hraw & Hm & ->).
  apply raw_preset_inv in Hraw. destruct Hraw as (n & Hn & Hpos & Hs).
  apply length_synthesize in Hs. rewrite length_linspace_points in Hs.
  rewrite length_map, Hs, Z2Nat.id by assumption. split; [exact Hn |].
  rewrite <- Hs. destruct raw; [discriminate | cbn; lia].
Qed.

Lemma special_sound_waveform_length_witness :
  exists audio,
    fst (normalized_preset Standin.collaborators "crystal_bowls" preset_crystal_bowls
           (Some 0.0002%float) Standin.fresh) = Ok audio
    /\ F64.py_int (F64.of_int sample_rate * 0.0002) = Ok (Z.of_nat (length audio))
    /\ (0 < length audio)%nat.
Proof.
  destruct (normalized_preset Standin.collaborators "crystal_bowls" preset_crystal_bowls
              (Some 0.0002%float) Standin.fresh) as [[audio | e] w'] eqn:Hrun.
  - exists audio. split; [reflexivity |].
    exact (special_sound_waveform_length Standin.collaborators "crystal_bowls"
             preset_crystal_bowls (Some 0.0002%float) Standin.fresh w' audio Hrun).
  - vm_compute in Hrun. discriminate Hrun.
Defined.

(** ** Chimes of at most one second *)

Lemma div_unsigned (a b : float) :
  Binary.unsigned (Prim2SF a) = true -> Binary.unsigned (Prim2SF b) = true ->
  Binary.unsigned (Prim2SF (a / b)) = true.
Proof.
  rewrite div_spec. unfold SF64div.
  destruct (Prim2SF a) as [sa | sa | | sa ma ea], (Prim2SF b) as [sb | sb | | sb mb eb];
    cbn [Binary.unsigned SFdiv]; intros Ha Hb; try reflexivity;
    try (destruct sa; [discriminate |]); try (destruct sb; [discriminate |]);
    try reflexivity.
  cbn [xorb]. destruct (SFdiv_core_binary _ _ _ _ _ _) as [[mz ez] lz].
  apply binary_round_aux_unsigned.
Qed.

Lemma of_int_unsigned (z : Z) :
  0 <= z -> Binary.unsigned (Prim2SF (F64.of_int z)) = true.
Proof.
  intros Hz. unfold F64.of_int. destruct (Z.ltb_spec z 0) as [? | _]; [lia |].
  rewrite of_uint63_spec. unfold binary_normalize.
  pose proof (Uint63.to_Z_bounded (Uint63.of_Z z)) as Hb.
  destruct (Uint63.to_Z (Uint63.of_Z z)) as [| m | m]; [reflexivity | | lia].
  unfold binary_round. destruct (shl_align _ _ _) as [mz ez].
  apply binary_round_aux_unsigned.
Qed.

Lemma standin_rand_unsigned (k : nat) :
  Binary.unsigned (Prim2SF (Standin.rand k)) = true.
Proof.
  unfold Standin.rand. apply div_unsigned; [| reflexivity].
  apply of_int_unsigned. apply Z.mod_pos_bound. lia.
Qed.

Lemma map_div_zero_repeat (k : nat) :
  map (fun v => (v / 0)%float) (repeat 0%float k) = repeat nan k.
Proof. induction k as [| k IH]; cbn [repeat map]; [reflexivity |]. now rewrite IH. Qed.

(** X11. Wind chimes need more than a second: a chime is added only where
    a full second (44100 samples) fits after its onset, so for every
    duration of at most 44100 samples, and whatever non-negative numbers
    are drawn, the waveform is all zero and what its normalization hands
    to the spatial renderer is NaN in every sample. *)
Theorem wind_chimes_up_to_one_second_nan (E : externals) (duration : float) (n : Z)
    (w w' : world) (audio : list float) :
  (forall k, Binary.unsigned (Prim2SF (random_rand E k)) = true) ->
  Binary.unsigned (Prim2SF duration) = true -> F64.truthy duration = true ->
  F64.py_int (F64.of_int sample_rate * duration) = Ok n -> n <= 44100 ->
  normalized_preset E "wind_chimes" preset_wind_chimes (Some duration) w = (Ok audio, w') ->
  audio = repeat nan (Z.to_nat n) /\ 0 < n.
Proof.
  intros Hr Hd Ht Hn Hle H.
  apply normalized_preset_inv in H. destruct H as (raw & m & Hraw & Hm & ->).
  destruct (wind_chimes_up_to_one_second_silent E duration n w w' raw Hr Hd Ht Hn Hle Hraw)
    as [Heq Hsilent].
  assert (Hne : raw <> []) by (intros ->; discriminate).
  rewrite (silent_peak raw Hne Hsilent) in Hm. injection Hm as <-.
  subst raw. split; [apply map_div_zero_repeat |].
  destruct (Z.to_nat n) eqn:Hk; [now contradiction Hne | lia].
Qed.

Lemma wind_chimes_up_to_one_second_nan_witness :
  exists audio,
    fst (normalized_preset Standin.collaborators "wind_chimes" preset_wind_chimes
           (Some 0.0001%float) Standin.fresh) = Ok audio
    /\ audio = repeat nan (Z.to_nat 4).
Proof.
  destruct (normalized_preset Standin.collaborators "wind_chimes" preset_wind_chimes
              (Some 0.0001%float) Standin.fresh) as [[audio | e] w'] eqn:Hrun.
  - exists audio. split; [reflexivity |].
    refine (proj1 (wind_chimes_up_to_one_second_nan Standin.collaborators 0.0001 4
                     Standin.fresh w' audio standin_rand_unsigned _ _ _ _ Hrun));
      [reflexivity | reflexivity | reflexivity | lia].
  - vm_compute in Hrun. discriminate Hrun.
Defined.

(** ** The final normalization on sessions *)

Lemma is_nan_spec (x : float) :
  is_nan x = match Prim2SF x with S754_nan => true | _ => false end.
Proof.
  unfold is_nan. rewrite FloatAxioms.eqb_spec.
  destruct (Prim2SF x) as [s | s | | s m e]; try reflexivity;
    try (destruct s; reflexivity).
  now rewrite (F64Facts.SFeqb_refl (S754_finite s m e)).
Qed.

Lemma is_nan_eq (x : float) : is_nan x = true -> x = nan.
Proof.
  rewrite is_nan_spec. intros H. apply Prim2SF_inj.
  destruct (Prim2SF x); try discriminate. reflexivity.
Qed.

Lemma div_nan (x : float) : (x / nan)%float = nan.
Proof.
  apply Prim2SF_inj. rewrite div_spec. change (Prim2SF nan) with S754_nan.
  now destruct (Prim2SF x).
Qed.

Lemma maximum_nan_r (a : float) : F64.maximum a nan = nan.
Proof.
  unfold F64.maximum. destruct (is_nan a) eqn:Ha; [now apply is_nan_eq | reflexivity].
Qed.

Lemma fold_maximum_nan (xs : list float) : fold_left F64.maximum xs nan = nan.
Proof. induction xs as [| x xs IH]; [reflexivity | exact IH]. Qed.

Lemma fold_maximum_poisoned (xs : list float) :
  forall acc, Exists (fun x => is_nan x = true) (acc :: xs) ->
    fold_left F64.maximum xs acc = nan.
Proof.
  induction xs as [| x xs IH]; intros acc H; cbn [fold_left].
  - inversion H as [? ? Hacc | ? ? Hxs]; subst; [now apply is_nan_eq | inversion Hxs].
  - inversion H as [? ? Hacc | ? ? Hxs]; subst.
    + apply is_nan_eq in Hacc. subst acc. apply fold_maximum_nan.
    + inversion Hxs as [? ? Hx | ? ? Hxs']; subst.
      * apply is_nan_eq in Hx. subst x. rewrite maximum_nan_r. apply fold_maximum_nan.
      * apply IH. now right.
Qed.

Lemma poisoned_peak (a : stereo) :
  Exists (fun x => is_nan x = true) (flatten a) -> peak a = Ok nan.
Proof.
  intros H. unfold peak, F64.np_abs.
  assert (H' : Exists (fun x => is_nan x = true) (map abs (flatten a))).
  { apply List.Exists_exists in H. destruct H as (x & Hin & Hx).
    apply List.Exists_exists. exists (abs x). split; [now apply in_map |].
    apply is_nan_eq in Hx. now subst x. }
  destruct (map abs (flatten a)) as [| x xs]; [inversion H' |].
  cbn [F64.np_max]. f_equal. now apply fold_maximum_poisoned.
Qed.

(** X12. One NaN sample in the mix is enough to lose the session: the
    peak is then NaN, the division raises nothing, and every sample of
    what [create_guided_meditation] returns is NaN. *)
Theorem nan_sample_poisons_session (E : externals) (duration : float)
    (target_state : string) (special : option (list string))
    (custom_script : option string) (w w' : world) (mixed : stereo) :
  mix_session E duration target_state special custom_script w = (Ok mixed, w') ->
  Exists (fun x => is_nan x = true) (flatten mixed) ->
  create_guided_meditation E duration target_state special custom_script w
  = (Ok (map (fun _ => (nan, nan)) mixed), w').
Proof.
  intros Hmix Hnan. unfold create_guided_meditation.
  rewrite (bind_ok _ _ _ _ _ Hmix). unfold lift.
  rewrite (peak_normalize_ok _ _ (poisoned_peak _ Hnan)).
  do 2 f_equal. apply map_ext. intros [l r]. now rewrite !div_nan.
Qed.

Lemma nan_sample_poisons_session_witness :
  create_guided_meditation Standin.collaborators 0.0001 "alpha" (Some ["wind_chimes"]) None
    Standin.fresh
  = (Ok [(nan, nan); (nan, nan); (nan, nan); (nan, nan)],
     {| files := ∅; open_handles := ∅; temp_count := 0; rng_draws := 25 |}).
Proof.
  refine (nan_sample_poisons_session Standin.collaborators 0.0001 "alpha"
            (Some ["wind_chimes"]) None Standin.fresh _
            [(nan, nan); (nan, nan); (nan, nan); (nan, nan)] _ _).
  - vm_compute. reflexivity.
  - left. reflexivity.
Defined.

(** X13. When the mix is finite and not silent, every sample of the
    session that is returned is finite and lies between -1 and 1. *)
Theorem session_samples_within_unit (E : externals) (duration : float)
    (target_state : string) (special : option (list string))
    (custom_script : option string) (w w' : world) (mixed : stereo) :
  mix_session E duration target_state special custom_script w = (Ok mixed, w') ->
  all_finite (flatten mixed) -> not_silent (flatten mixed) ->
  exists out,
    create_guided_meditation E duration target_state special custom_script w
    = (Ok out, w')
    /\ Forall (fun x => is_finite x = true /\ (abs x <=? 1)%float = true) (flatten out).
Proof.
  intros Hmix Hfin Hex.
  assert (Hne : flatten mixed <> []) by (intros Heq; rewrite Heq in Hex; inversion Hex).
  destruct (F64Facts.peak_spec _ Hne Hfin) as (m & Hpeak & Hm & Hall & _).
  assert (Hnz : is_zero m = false).
  { apply List.Exists_exists in Hex. destruct Hex as (x & Hin & Hx).
    unfold all_finite in Hfin. rewrite List.Forall_forall in Hfin, Hall.
    apply (F64Facts.peak_nonzero x m); auto. }
  exists (map (fun '(l, r) => (l / m, r / m)%float) mixed). split.
  - unfold create_guided_meditation. rewrite (bind_ok _ _ _ _ _ Hmix). unfold lift.
    now rewrite (peak_normalize_ok _ _ Hpeak).
  - rewrite flatten_map_div, List.Forall_map.
    unfold all_finite in Hfin. rewrite List.Forall_forall in *. intros x Hin.
    destruct (F64Facts.div_by_peak x m (Hfin x Hin) Hm Hnz (Hall x Hin)) as (H1 & H2 & _).
    now split.
Qed.

Lemma session_samples_within_unit_witness :
  exists out,
    create_guided_meditation Standin.collaborators 0.0001 "alpha" None None Standin.fresh
    = (Ok out, Standin.fresh)
    /\ Forall (fun x => is_finite x = true /\ (abs x <=? 1)%float = true) (flatten out).
Proof.
  refine (session_samples_within_unit Standin.collaborators 0.0001 "alpha" None None
            Standin.fresh Standin.fresh
            (match fst (mix_session Standin.collaborators 0.0001 "alpha" None None
                          Standin.fresh) with
             | Ok mixed => mixed
             | Raise _ => []
             end) _ _ _).
  - vm_compute. reflexivity.
  - vm_compute. repeat constructor.
  - vm_compute. apply Exists_cons_tl, Exists_cons_tl, Exists_cons_hd. reflexivity.
Defined.

(** ** Effects of a session on the world *)

Lemma same_files_refl (w : world) : same_files w w.
Proof. repeat split. Qed.

Lemma same_files_trans (w1 w2 w3 : world) :
  same_files w1 w2 -> same_files w2 w3 -> same_files w1 w3.
Proof. unfold same_files. intros (? & ? & ?) (? & ? & ?). repeat split; congruence. Qed.

Lemma bind_same_files {A B} (m : M A) (k : A -> M B) :
  (forall w, same_files w (snd (m w))) ->
  (forall a w, same_files w (snd (k a w))) ->
  forall w, same_files w (snd (bind m k w)).
Proof.
  intros Hm Hk w. unfold bind. specialize (Hm w).
  destruct (m w) as [[a | e] w1]; cbn [snd] in *; [| exact Hm].
  eapply same_files_trans; [exact Hm | apply Hk].
Qed.

Lemma lift_same_files {A} (r : result A) (w : world) : same_files w (snd (lift r w)).
Proof. apply same_files_refl. Qed.

Lemma wind_chimes_loop_same_files (E : externals) (duration : float) (t : list float)
    (freqs : list float) :
  forall audio w, same_files w (snd (wind_chimes_loop E freqs duration t audio w)).
Proof.
  induction freqs as [| freq freqs IH]; intros audio w; cbn [wind_chimes_loop].
  - apply same_files_refl.
  - revert w. apply bind_same_files.
    + intros w. repeat split.
    + intros r. apply bind_same_files; [intros w; apply lift_same_files |].
      intros audio'. apply IH.
Qed.

Lemma generate_special_sound_same_files (E : externals) (sound_type : string)
    (duration : option float) (w : world) :
  same_files w (snd (generate_special_sound E sound_type duration w)).
Proof.
  unfold generate_special_sound.
  destruct (special_sounds !! sound_type) as [p |]; [| apply same_files_refl].
  revert w. apply bind_same_files; [| intros; apply lift_same_files].
  unfold normalized_preset. apply bind_same_files.
  - unfold raw_preset. apply bind_same_files; [intros; apply lift_same_files |].
    intros n. apply bind_same_files; [intros; apply lift_same_files |].
    intros t w. unfold synthesize.
    destruct (bool_decide (sound_type = "crystal_bowls")); [apply same_files_refl |].
    destruct (bool_decide (sound_type = "om_chant")); [apply lift_same_files |].
    destruct (bool_decide (sound_type = "wind_chimes")); [| apply same_files_refl].
    unfold wind_chimes. apply wind_chimes_loop_same_files.
  - intros raw. apply bind_same_files; [intros; apply lift_same_files |].
    intros m w. apply same_files_refl.
Qed.

Lemma atmos_loop_same_files (E : externals) (count : nat) (duration : float)
    (sounds : list string) :
  forall output w, same_files w (snd (atmos_loop E sounds count duration output w)).
Proof.
  induction sounds as [| s sounds IH]; intros output w; cbn [atmos_loop].
  - apply same_files_refl.
  - revert w. apply bind_same_files; [apply generate_special_sound_same_files |].
    intros sound. apply IH.
Qed.

Lemma base_audio_same_files (E : externals) (duration : float) (target_state : string)
    (special : option (list string)) (w : world) :
  same_files w
    (snd ((if sounds_given special then create_atmos_mix E (default [] special) duration
           else fallback_bed E duration target_state) w)).
Proof.
  destruct (sounds_given special).
  - revert w. unfold create_atmos_mix.
    apply bind_same_files; [intros; apply lift_same_files |].
    intros n. apply bind_same_files; [intros; apply lift_same_files |].
    intros output w. apply atmos_loop_same_files.
  - revert w. unfold fallback_bed.
    apply bind_same_files; [intros; apply lift_same_files |].
    intros n. apply bind_same_files; [intros; apply lift_same_files |].
    intros t w. destruct (brainwave_states !! target_state); apply same_files_refl.
Qed.

(** X14. A session without a script never touches the file system: on
    every way out, with or without special sounds, the files, the open
    handles and the temporary names handed out are what they were. *)
Theorem session_without_script_writes_nothing (E : externals) (duration : float)
    (target_state : string) (special : option (list string))
    (custom_script : option string) (w : world) :
  script_given custom_script = false ->
  same_files w
    (snd (create_guided_meditation E duration target_state special custom_script w)).
Proof.
  intros Hs. revert w. unfold create_guided_meditation.
  apply bind_same_files; [| intros; apply lift_same_files].
  unfold mix_session. apply bind_same_files.
  - apply base_audio_same_files.
  - intros base w. unfold voice_overlay. rewrite Hs. apply same_files_refl.
Qed.

Lemma session_without_script_writes_nothing_witness :
  same_files Standin.fresh
    (snd (create_guided_meditation Standin.collaborators 0.0001 "theta"
            (Some ["wind_chimes"; "om_chant"]) (Some "") Standin.fresh)).
Proof.
  refine (session_without_script_writes_nothing Standin.collaborators 0.0001 "theta"
            (Some ["wind_chimes"; "om_chant"]) (Some "") Standin.fresh _).
  reflexivity.
Defined.

Lemma special_sound_draws (E : externals) (sound_type : string)
    (duration : option float) (w w' : world) (sound : stereo) :
  generate_special_sound E sound_type duration w = (Ok sound, w') ->
  rng_draws w'
  = (rng_draws w + if bool_decide (sound_type = "wind_chimes") then 25 else 0)%nat.
Proof.
  unfold generate_special_sound.
  destruct (special_sounds !! sound_type) as [p |] eqn:Hp; [| discriminate].
  intros H. apply bind_inv_ok in H. destruct H as (audio & w1 & Hn & H).
  apply lift_inv_ok in H. destruct H as [_ ->].
  apply normalized_preset_inv in Hn. destruct Hn as (raw & m & Hraw & _ & _).
  apply raw_preset_inv in Hraw. destruct Hraw as (n & _ & _ & Hs).
  unfold synthesize in Hs.
  destruct (decide (sound_type = "crystal_bowls")) as [-> | Hc].
  { inversion Hs; subst. rewrite bool_decide_eq_false_2 by discriminate. lia. }
  rewrite (bool_decide_eq_false_2 _ Hc) in Hs.
  destruct (decide (sound_type = "om_chant")) as [-> | Ho].
  { apply lift_inv_ok in Hs. destruct Hs as [_ ->].
    rewrite bool_decide_eq_false_2 by discriminate. lia. }
  rewrite (bool_decide_eq_false_2 _ Ho) in Hs.
  destruct (decide (sound_type = "wind_chimes")) as [-> | Hw].
  - injection Hp as <-. unfold wind_chimes in Hs.
    apply wind_chimes_loop_inv in Hs. destruct Hs as (_ & _ & _ & _ & ->).
    now rewrite bool_decide_eq_true_2.
  - rewrite (bool_decide_eq_false_2 _ Hw) in Hs. discriminate.
Qed.

Lemma atmos_loop_draws (E : externals) (count : nat) (duration : float)
    (sounds : list string) :
  forall output w out w',
    atmos_loop E sounds count duration output w = (Ok out, w') ->
    rng_draws w'
    = (rng_draws w + 25 * count_occ String.string_dec sounds "wind_chimes")%nat.
Proof.
  induction sounds as [| s sounds IH]; intros output w out w'; cbn [atmos_loop count_occ].
  - unfold ret. intros [= _ <-]. lia.
  - intros H. apply bind_inv_ok in H. destruct H as (sound & w1 & Hs & H).
    apply IH in H. apply special_sound_draws in Hs. rewrite H, Hs.
    destruct (String.string_dec s "wind_chimes") as [-> | Hne].
    + rewrite bool_decide_eq_true_2 by reflexivity. lia.
    + rewrite bool_decide_eq_false_2 by assumption. lia.
Qed.

(** X15. Randomness enters a mix through the wind chimes only: a mix
    that is returned has drawn exactly 25 random numbers (five onsets for
    each of the five chime frequencies) for every occurrence of
    'wind_chimes' in the list, and none for the other sounds. *)
Theorem atmos_mix_random_draws (E : externals) (sounds : list string) (duration : float)
    (w w' : world) (out : stereo) :
  create_atmos_mix E sounds duration w = (Ok out, w') ->
  rng_draws w'
  = (rng_draws w + 25 * count_occ String.string_dec sounds "wind_chimes")%nat.
Proof.
  unfold create_atmos_mix. intros H.
  apply bind_inv_ok in H. destruct H as (n & w1 & Hn & H).
  apply lift_inv_ok in Hn. destruct Hn as [_ ->].
  apply bind_inv_ok in H. destruct H as (output & w1 & Hz & H).
  apply lift_inv_ok in Hz. destruct Hz as [_ ->].
  now apply atmos_loop_draws in H.
Qed.

Lemma atmos_mix_random_draws_witness :
  rng_draws
    (snd (create_atmos_mix Standin.collaborators
            ["wind_chimes"; "om_chant"; "wind_chimes"] 0.0001 Standin.fresh))
  = 50%nat.
Proof.
  destruct (create_atmos_mix Standin.collaborators
              ["wind_chimes"; "om_chant"; "wind_chimes"] 0.0001 Standin.fresh)
    as [[out | e] w'] eqn:Hrun.
  - exact (atmos_mix_random_draws Standin.collaborators
             ["wind_chimes"; "om_chant"; "wind_chimes"] 0.0001 Standin.fresh w' out Hrun).
  - vm_compute in Hrun. discriminate Hrun.
Defined.



(** X17. A session on the fallback tone without a script is plain dual
    mono and free of effects: both channels of every frame are equal, and
    the world is left exactly as it was. *)
Theorem fallback_session_dual_mono (E : externals) (duration : float)
    (target_state : string) (special : option (list string))
    (custom_script : option string) (w w' : world) (out : stereo) :
  sounds_given special = false -> script_given custom_script = false ->
  create_guided_meditation E duration target_state special custom_script w = (Ok out, w') ->
  Forall (fun frame => fst frame = snd frame) out /\ w' = w.
Proof.
  intros Hs Hc. unfold create_guided_meditation, mix_session. rewrite Hs. intros H.
  apply bind_inv_ok in H. destruct H as (mixed & w1 & Hmix & H).
  apply lift_inv_ok in H. destruct H as [H ->].
  apply bind_inv_ok in Hmix. destruct Hmix as (base & w0 & Hbase & Hmix).
  apply fallback_bed_inv in Hbase. destruct Hbase as (n & band & _ & _ & _ & -> & ->).
  apply voice_overlay_inv in Hmix.
  destruct Hmix as [(_ & -> & ->) | (Hc' & _)]; [| congruence].
  split; [| reflexivity].
  apply peak_normalize_inv in H. destruct H as (m & _ & -> & _).
  cbv zeta. generalize (tone E (2 * F64.np_pi * np_mean band)
                          (F64.linspace_points 0 duration n)).
  intros wave. unfold column_stack.
  induction wave as [| v wave IH]; cbn; constructor; [reflexivity | exact IH].
Qed.

Lemma fallback_session_dual_mono_witness :
  exists out,
    fst (create_guided_meditation Standin.collaborators 0.0001 "gamma" None None
           Standin.fresh) = Ok out
    /\ Forall (fun frame => fst frame = snd frame) out.
Proof.
  destruct (create_guided_meditation Standin.collaborators 0.0001 "gamma" None None
              Standin.fresh) as [[out | e] w'] eqn:Hrun.
  - exists out. split; [reflexivity |].
    exact (proj1 (fallback_session_dual_mono Standin.collaborators 0.0001 "gamma" None None
                    Standin.fresh w' out eq_refl eq_refl Hrun)).
  - vm_compute in Hrun. discriminate Hrun.
Defined.

(** ** Durations *)

Lemma special_sounds_inv (sound_type : string) (p : sound_params) :
  special_sounds !! sound_type = Some p ->
  p = preset_crystal_bowls \/ p = preset_om_chant \/ p = preset_wind_chimes.
Proof.
  unfold special_sounds. intros H. apply elem_of_list_to_map_2 in H.
  rewrite !elem_of_cons in H.
  destruct H as [H | [H | [H | H]]];
    [injection H; auto .. | now apply elem_of_nil in H].
Qed.

(** X18. [duration or sound_params['duration']]: a duration of 0 (or -0)
    is false like [None]. Asking a sound for zero seconds is the same
    computation as asking for no duration at all: the waveform has the
    length of the preset, at least two seconds (88200 samples), not length
    zero. *)
Theorem zero_duration_means_preset (E : externals) (sound_type : string) (duration : float) :
  F64.truthy duration = false ->
  generate_special_sound E sound_type (Some duration)
  = generate_special_sound E sound_type None
  /\ forall (p : sound_params) (w w' : world) (audio : list float),
       special_sounds !! sound_type = Some p ->
       normalized_preset E sound_type p (Some duration) w = (Ok audio, w') ->
       F64.py_int (F64.of_int sample_rate * preset_duration p)
       = Ok (Z.of_nat (length audio))
       /\ 88200 <= Z.of_nat (length audio).
Proof.
  intros Ht. split.
  { unfold generate_special_sound, normalized_preset, raw_preset, duration_or.
    now rewrite Ht. }
  intros p w w' audio Hp H.
  apply normalized_preset_inv in H. destruct H as (raw & m & Hraw & _ & ->).
  apply raw_preset_inv in Hraw. destruct Hraw as (n & Hn & Hpos & Hs).
  apply length_synthesize in Hs. rewrite length_linspace_points in Hs.
  unfold duration_or in Hn. rewrite Ht in Hn.
  rewrite length_map, Hs, Z2Nat.id by assumption. split; [exact Hn |].
  apply special_sounds_inv in Hp.
  destruct Hp as [-> | [-> | ->]]; vm_compute in Hn; injection Hn as <-; lia.
Qed.

Lemma zero_duration_means_preset_witness :
  generate_special_sound Standin.collaborators "om_chant" (Some (-0)%float)
  = generate_special_sound Standin.collaborators "om_chant" None.
Proof.
  refine (proj1 (zero_duration_means_preset Standin.collaborators "om_chant" (-0)%float _)).
  reflexivity.
Defined.

(** X19. Durations that are no length. When [int(sample_rate * duration)]
    cannot be taken (a NaN or an infinite duration) the session fails with
    the exception of [int]; when it is negative the session fails with the
    [ValueError] of the first array that is built ([np.zeros] for a mix of
    special sounds, [np.linspace] for the fallback tone). Nothing else
    has happened by then, and neither the band nor the sounds nor the
    script have been looked at. *)
Theorem invalid_duration_fails_first (E : externals) (duration : float)
    (target_state : string) (special : option (list string))
    (custom_script : option string) (w : world) :
  (forall e,
     F64.py_int (F64.of_int sample_rate * duration) = Raise e ->
     create_guided_meditation E duration target_state special custom_script w
     = (Raise e, w))
  /\ (forall n,
        F64.py_int (F64.of_int sample_rate * duration) = Ok n -> n < 0 ->
        exists msg,
          create_guided_meditation E duration target_state special custom_script w
          = (Raise (ValueError msg), w)).
Proof.
  split.
  - intros e He. unfold create_guided_meditation, mix_session.
    apply bind_raise, bind_raise.
    destruct (sounds_given special); [unfold create_atmos_mix | unfold fallback_bed];
      apply bind_raise; unfold lift; now rewrite He.
  - intros n Hn Hneg. unfold create_guided_meditation, mix_session.
    destruct (sounds_given special); eexists; apply bind_raise, bind_raise;
      [unfold create_atmos_mix | unfold fallback_bed];
      rewrite (bind_ok _ _ w w n) by (unfold lift; now rewrite Hn).
    + apply bind_raise. unfold lift, np_zeros.
      destruct (Z.ltb_spec n 0); [reflexivity | lia].
    + apply bind_raise. unfold lift, F64.linspace.
      destruct (Z.ltb_spec n 0); [reflexivity | lia].
Qed.

Lemma invalid_duration_fails_first_witness :
  exists msg,
    create_guided_meditation Standin.collaborators (-1) "no such band" (Some ["rain"])
      (Some "breathe") Standin.fresh
    = (Raise (ValueError msg), Standin.fresh).
Proof.
  refine (proj2 (invalid_duration_fails_first Standin.collaborators (-1) "no such band"
                   (Some ["rain"]) (Some "breathe") Standin.fresh) (-44100) _ _);
    [reflexivity | lia].
Defined.

(** ** One chime *)

Lemma slice_bounds_inside (n start stop : Z) :
  0 <= start <= stop -> stop <= n -> slice_bounds n start stop = (start, stop).
Proof.
  intros H1 H2. unfold slice_bounds.
  destruct (Z.ltb_spec start 0), (Z.ltb_spec stop 0); try lia.
  f_equal; lia.
Qed.

(** X20. What one chime does to the waveform when a full second fits
    after its onset [idx = int(start * sample_rate)]: the call returns, the
    length is kept, the 44100 samples from [idx] on receive the decaying
    sine [sin(2 pi freq t) * exp(-5 t)] read on the first 44100 instants of
    the grid, and no other sample is touched. *)
Theorem chime_window (E : externals) (freq start : float) (t audio : list float)
    (idx : nat) :
  F64.py_int (start * F64.of_int sample_rate) = Ok (Z.of_nat idx) ->
  Z.of_nat idx + 44100 < Z.of_nat (length audio) ->
  length t = length audio ->
  exists out,
    chime_at E freq t audio start = Ok out
    /\ length out = length audio
    /\ forall (i : nat) (a : float),
         audio !! i = Some a ->
         out !! i
         = Some (if bool_decide (Z.of_nat idx <= Z.of_nat i < Z.of_nat idx + 44100)
                 then
                   let ti := nth (i - idx) t 0%float in
                   (a + np_sin E (2 * F64.np_pi * freq * ti) * np_exp E (- ti * 5))%float
                 else a).
Proof.
  intros Hidx Hfit Hlen. unfold chime_at. rewrite Hidx. cbn [rbind].
  destruct (Z.ltb_spec (Z.of_nat idx + 44100) (Z.of_nat (length audio))) as [_ | ?]; [| lia].
  unfold slice_iadd. rewrite slice_bounds_inside by lia.
  rewrite Nat2Z.id.
  replace (Z.to_nat (Z.of_nat idx + 44100)) with (idx + Z.to_nat 44100)%nat by lia.
  replace (idx + Z.to_nat 44100 - idx)%nat with (Z.to_nat 44100) by lia.
  set (k := Z.to_nat 44100) in *.
  assert (Hk : Z.of_nat k = 44100) by (subst k; lia).
  set (t1 := firstn k t).
  set (target := firstn k (skipn idx audio)).
  set (chime := zip_with mul (tone E (2 * F64.np_pi * freq) t1)
                  (map (fun ti => np_exp E (- ti * 5)%float) t1)).
  assert (Ht1 : length t1 = k) by (subst t1; rewrite length_firstn; lia).
  assert (Htarget : length target = k).
  { subst target. rewrite length_firstn, length_skipn. lia. }
  assert (Hchime : length chime = k).
  { subst chime. rewrite length_zip_with, length_tone, length_map, Ht1. lia. }
  rewrite Hchime, Htarget, Nat.eqb_refl.
  eexists. split; [reflexivity |].
  assert (Hmid : length (F64.vadd target chime) = k).
  { unfold F64.vadd. rewrite length_zip_with. lia. }
  split.
  { rewrite !length_app, length_firstn, length_skipn, Hmid. lia. }
  intros i a Hi. pose proof (lookup_lt_Some _ _ _ Hi) as Hlt.
  destruct (Nat.lt_ge_cases i idx) as [Hbefore | Hfrom].
  - rewrite bool_decide_eq_false_2 by lia.
    rewrite lookup_app_l by (rewrite length_firstn; lia).
    now rewrite lookup_take_lt.
  - rewrite lookup_app_r by (rewrite length_firstn; lia).
    rewrite length_firstn. replace (Nat.min idx (length audio)) with idx by lia.
    destruct (Nat.lt_ge_cases i (idx + k)) as [Hin | Hafter].
    + rewrite bool_decide_eq_true_2 by lia.
      rewrite lookup_app_l by lia.
      unfold F64.vadd. rewrite lookup_zip_with.
      assert (Ha : target !! (i - idx)%nat = Some a).
      { subst target. rewrite lookup_take_lt by lia. rewrite lookup_drop.
        now replace (idx + (i - idx))%nat with i by lia. }
      assert (Hti : t1 !! (i - idx)%nat = Some (nth (i - idx) t 0%float)).
      { subst t1. rewrite lookup_take_lt by lia.
        destruct (nth_lookup_or_length t (i - idx) 0%float) as [-> | ?]; [reflexivity | lia]. }
      rewrite Ha. subst chime. rewrite lookup_zip_with. unfold tone.
      change (map ?f t1) with (f <$> t1).
      rewrite !list_lookup_fmap, Hti. reflexivity.
    + rewrite bool_decide_eq_false_2 by lia.
      rewrite lookup_app_r by lia. rewrite Hmid, lookup_drop.
      now replace (idx + k + (i - idx - k))%nat with i by lia.
Qed.

Lemma chime_window_witness :
  exists out,
    chime_at Standin.collaborators 880 (repeat 0%float (Z.to_nat 44102))
      (repeat 0%float (Z.to_nat 44102)) 0 = Ok out
    /\ length out = length (repeat 0%float (Z.to_nat 44102)).
Proof.
  destruct (chime_window Standin.collaborators 880 0 (repeat 0%float (Z.to_nat 44102))
              (repeat 0%float (Z.to_nat 44102)) 0) as (out & Hout & Hlen & _).
  - reflexivity.
  - rewrite repeat_length. lia.
  - reflexivity.
  - exists out. split; assumption.
Defined.
